(** * TVPol XML scraper: a shallow embedding of [main.py] and its properties

    The program is a linear pipeline: read the list of feed URLs from
    column M of a spreadsheet, fetch and parse each feed, replace the
    range A2:H of the sheet with the parsed rows, read that range back,
    write it to a tab-separated UTF-16 snapshot file and mail the file.

    The embedding follows the source function by function.  Python
    values are modelled as the code has them:
    - a [str] is the list of its Unicode code points ([list Z]);
    - a value that is either a [str] or [None] is an [option (list Z)];
    - an exception is a value of [exn], classified by [isinstance];
    - code with effects (logging, network, sheet, files, mail, sleeping)
      is a function from a [world] to an outcome and a new [world]. *)

From Stdlib Require Import ZArith List Lia String Ascii DecimalString.
From stdpp Require Import base decidable option list numbers gmap fin_maps.

Set Warnings "-register-all".
Local Open Scope Z_scope.

(* ===================================================================== *)
(** * Python strings                                                      *)
(* ===================================================================== *)

(** A Python [str]: the sequence of its code points. *)
Abbreviation pystr := (list Z).

(** The [str] written by an ASCII literal of the source. *)
Definition str (s : string) : pystr :=
  List.map (fun a => Z.of_N (N_of_ascii a)) (list_ascii_of_string s).

(** [str(n)] for a non-negative [int], as an f-string formats it. *)
Definition str_of_nat (n : nat) : pystr :=
  str (NilZero.string_of_uint (Nat.to_uint n)).

(** The filler title of line 115, "Zakończenie dnia"; its fifth letter is
    U+0144 (small n with acute), code point 324. *)
Definition FILLER_TITLE : pystr :=
  str "Zako" ++ [324] ++ str "czenie dnia".

(** Python's [==] between a value that may be [None] and a [str]. *)
Definition py_eq (v : option pystr) (s : pystr) : bool :=
  match v with
  | Some t => bool_decide (t = s)
  | None => false
  end.

(** Truthiness of a [str] ([if url:]): the empty string is false. *)
Definition truthy (s : pystr) : bool :=
  match s with
  | [] => false
  | _ :: _ => true
  end.

(* ===================================================================== *)
(** * Exceptions                                                          *)
(* ===================================================================== *)

(** The exception classes that the program names or that its libraries
    raise, with the base classes each one is declared with. *)
Inductive exc_class :=
  | Exception
  | AttributeError
  | TypeError
  | ValueError
  | UnicodeError
  | UnicodeEncodeError
  | OSError
  | FileNotFoundError
  | SyntaxError
  | ParseError            (* xml.etree.ElementTree.ParseError *)
  | RequestException      (* requests.exceptions.* *)
  | HTTPError
  | RequestsConnectionError
  | RequestsTimeout
  | ConnectTimeout
  | ReadTimeout
  | TooManyRedirects
  | MissingSchema
  | InvalidSchema
  | InvalidURL
  | GSpreadException      (* gspread.exceptions.* *)
  | APIError
  | SMTPException         (* smtplib.* *)
  | SMTPServerDisconnected
  | SMTPResponseException
  | SMTPAuthenticationError
  | SMTPRecipientsRefused
  | RetryError.           (* tenacity.RetryError *)

#[global] Instance exc_class_eq_dec : EqDecision exc_class.
Proof. solve_decision. Defined.

(** The direct base classes, as the libraries declare them.  In
    [requests], the three URL-syntax errors derive from both
    [RequestException] and [ValueError]; [RequestException] derives from
    [IOError], which is [OSError]. *)
Definition bases (c : exc_class) : list exc_class :=
  match c with
  | Exception => []
  | AttributeError | TypeError | ValueError | OSError | SyntaxError => [Exception]
  | UnicodeError => [ValueError]
  | UnicodeEncodeError => [UnicodeError]
  | FileNotFoundError => [OSError]
  | ParseError => [SyntaxError]
  | RequestException => [OSError]
  | HTTPError | RequestsConnectionError | RequestsTimeout | TooManyRedirects =>
      [RequestException]
  | ConnectTimeout => [RequestsConnectionError; RequestsTimeout]
  | ReadTimeout => [RequestsTimeout]
  | MissingSchema | InvalidSchema | InvalidURL => [RequestException; ValueError]
  | GSpreadException => [Exception]
  | APIError => [GSpreadException]
  | SMTPException => [OSError]
  | SMTPServerDisconnected | SMTPResponseException | SMTPRecipientsRefused =>
      [SMTPException]
  | SMTPAuthenticationError => [SMTPResponseException]
  | RetryError => [Exception]
  end.

(** [issubclass c d], following base classes at most [depth] levels up. *)
Fixpoint subclass_within (depth : nat) (c d : exc_class) : bool :=
  bool_decide (c = d) ||
  match depth with
  | O => false
  | S depth' => existsb (fun b => subclass_within depth' b d) (bases c)
  end.

(** No class of [bases] is more than four levels below [Exception]. *)
Definition issubclass (c d : exc_class) : bool := subclass_within 4 c d.

(** A raised exception.  tenacity's [RetryError] carries the last failed
    attempt, whose exception is [last_attempt]. *)
Inductive exn :=
  | Exc (c : exc_class)
  | RetryErr (last_attempt : exn).

Definition type_of (e : exn) : exc_class :=
  match e with
  | Exc c => c
  | RetryErr _ => RetryError
  end.

Definition isinstance (e : exn) (c : exc_class) : bool :=
  issubclass (type_of e) c.

(* ===================================================================== *)
(** * Element trees                                                       *)
(* ===================================================================== *)

(** An [xml.etree.ElementTree.Element]: its tag, its [text] attribute
    (which is [None] when the element has no text, as in [<EPG/>] and
    [<EPG></EPG>]) and its children in document order. *)
Inductive Element :=
  | Elem (tag : pystr) (text : option pystr) (children : list Element).

Definition tag (e : Element) : pystr :=
  match e with Elem t _ _ => t end.
Definition text (e : Element) : option pystr :=
  match e with Elem _ x _ => x end.
Definition children (e : Element) : list Element :=
  match e with Elem _ _ cs => cs end.

(** [Element.iter()]: the element and all its descendants, in document
    order. *)
Fixpoint iter (e : Element) : list Element :=
  match e with
  | Elem _ _ cs => e :: List.flat_map iter cs
  end.

(** [e.findall('.//name')]: the descendants of [e] (not [e] itself) whose
    tag is [name], in document order. *)
Definition findall (e : Element) (name : pystr) : list Element :=
  List.filter (fun d => bool_decide (tag d = name))
              (List.flat_map iter (children e)).

(** [e.find('.//name')]: the first element of [findall], or [None]. *)
Definition find (e : Element) (name : pystr) : option Element :=
  head (findall e name).

(** The body of an HTTP response, as [ET.fromstring] sees it: the bytes
    of a well-formed document are represented by the tree the parser
    builds from them, all other bytes by [Malformed]. *)
Inductive xml_content :=
  | WellFormed (root : Element)
  | Malformed.

(* ===================================================================== *)
(** * The world the program runs in                                       *)
(* ===================================================================== *)

(** A record of the run log ([logging] with level DEBUG keeps both levels
    the program uses). *)
Inductive level := INFO | WARNING.
Abbreviation log_record := (level * pystr)%type.

(** A range in A1 notation: the program builds ["A2:H"] and, for a row
    number [i], [f"A{i}:H{i}"]. *)
Inductive a1_range :=
  | A2_H
  | Ai_Hi (i : nat).

(** A row handed to the sheet: the parser may put [None] in a field. *)
Abbreviation row := (list (option pystr)).

(** One entry of the [batch_update] request: [{"range": .., "values": ..}]. *)
Record value_range := { vr_range : a1_range; vr_values : list row }.

(** An HTTP response; the program reads only [content]. *)
Record response := { status_code : nat; content : xml_content }.

(** The message handed to [sendmail]. *)
Record email := {
  mail_from : pystr;
  mail_to : pystr;
  mail_subject : pystr;
  mail_cc : pystr;
  mail_body : pystr;
  snapshot_attachment : pystr * list Z;       (* file name, bytes *)
  log_attachment : pystr * list log_record    (* file name, the log so far *)
}.

(** The calls that leave the process, in the order they are made. *)
Inductive event :=
  | EvHttpGet (url : pystr)
  | EvColValues (col : nat)
  | EvBatchClear (ranges : list a1_range)
  | EvBatchUpdate (data : list value_range)
  | EvSheetGet (range : a1_range)
  | EvSmtpConnect
  | EvStarttls
  | EvLogin
  | EvSendmail
  | EvQuit
  | EvSleep (seconds : nat).

(** What the run does not control: the configuration read from the
    environment, what each URL serves, and which external calls fail.
    External calls are numbered in the order they are made; [fault n] is
    the exception the [n]-th call raises, if it raises. *)
Record environment := {
  CURRENT_DATE : pystr;
  cwd : pystr;
  sender_email : pystr;
  receiver_email : pystr;
  cc_list : list pystr;
  email_subject : pystr;
  email_body : pystr;
  web : pystr -> response;
  fault : nat -> option exn
}.

(** The state a run changes: the cells of the worksheet (row, column, both
    from 1; an empty cell has no entry), the files of the working
    directory, the run log, the messages delivered, the external calls
    made and their number. *)
Record world := {
  env : environment;
  sheet : gmap (nat * nat) pystr;
  fs : gmap pystr (list Z);
  log : list log_record;
  outbox : list email;
  trace : list event;
  tick : nat
}.

Definition set_sheet (s : gmap (nat * nat) pystr) (w : world) : world :=
  {| env := env w; sheet := s; fs := fs w; log := log w;
     outbox := outbox w; trace := trace w; tick := tick w |}.
Definition set_fs (f : gmap pystr (list Z)) (w : world) : world :=
  {| env := env w; sheet := sheet w; fs := f; log := log w;
     outbox := outbox w; trace := trace w; tick := tick w |}.
Definition add_log (r : log_record) (w : world) : world :=
  {| env := env w; sheet := sheet w; fs := fs w; log := log w ++ [r];
     outbox := outbox w; trace := trace w; tick := tick w |}.
Definition add_mail (m : email) (w : world) : world :=
  {| env := env w; sheet := sheet w; fs := fs w; log := log w;
     outbox := outbox w ++ [m]; trace := trace w; tick := tick w |}.
Definition add_event (ev : event) (w : world) : world :=
  {| env := env w; sheet := sheet w; fs := fs w; log := log w;
     outbox := outbox w; trace := trace w ++ [ev]; tick := tick w |}.
Definition next_tick (w : world) : world :=
  {| env := env w; sheet := sheet w; fs := fs w; log := log w;
     outbox := outbox w; trace := trace w; tick := S (tick w) |}.

(* ===================================================================== *)
(** * Computations that change the world and may raise                    *)
(* ===================================================================== *)

Inductive result (A : Type) :=
  | Ok (a : A)
  | Raise (e : exn).
Arguments Ok {A} a.
Arguments Raise {A} e.

Definition M (A : Type) : Type := world -> result A * world.

Definition ret {A} (a : A) : M A := fun w => (Ok a, w).
Definition raise {A} (e : exn) : M A := fun w => (Raise e, w).
Definition bind {A B} (m : M A) (k : A -> M B) : M B :=
  fun w =>
    match m w with
    | (Ok a, w') => k a w'
    | (Raise e, w') => (Raise e, w')
    end.

Notation "'let*' x ':=' m 'in' k" := (bind m (fun x => k))
  (at level 10, x name, m at level 100, k at level 200).

(** Reading and changing the state. *)
Definition gets {A} (f : world -> A) : M A := fun w => (Ok (f w), w).
Definition modify (f : world -> world) : M unit := fun w => (Ok tt, f w).

(** [if c: m] *)
Definition when (c : bool) (m : M unit) : M unit :=
  if c then m else ret tt.

(** [logger.info(msg)] and [logger.warning(msg)]. *)
Definition logger_info (msg : pystr) : M unit := modify (add_log (INFO, msg)).
Definition logger_warning (msg : pystr) : M unit :=
  modify (add_log (WARNING, msg)).

(** A call that leaves the process: it is recorded, it takes the next
    number, and it raises when the environment says that call fails. *)
Definition external (ev : event) : M unit :=
  fun w =>
    let w' := next_tick (add_event ev w) in
    match fault (env w) (tick w) with
    | Some e => (Raise e, w')
    | None => (Ok tt, w')
    end.

(** [time.sleep(seconds)], as tenacity calls it between attempts. *)
Definition sleep (seconds : nat) (w : world) : world :=
  add_event (EvSleep seconds) w.

(* ===================================================================== *)
(** * [parse_xml_content] (lines 104-162)                                 *)
(* ===================================================================== *)

(** [ET.fromstring(xml_content)] *)
Definition ET_fromstring (xml : xml_content) : M Element :=
  match xml with
  | WellFormed root => ret root
  | Malformed => raise (Exc ParseError)
  end.

(** [x.text] where [x] is the result of a [find]: on [None] the attribute
    access raises [AttributeError]. *)
Definition text_attr (x : option Element) : M (option pystr) :=
  match x with
  | Some el => ret (text el)
  | None => raise (Exc AttributeError)
  end.

(** [x.text if x is not None else ""] *)
Definition text_or_empty (x : option Element) : option pystr :=
  match x with
  | Some el => text el
  | None => Some (str "")
  end.

(** [if x is None: logger.warning(msg)] *)
Definition warn_if_none (x : option Element) (msg : pystr) : M unit :=
  match x with
  | None => logger_warning msg
  | Some _ => ret tt
  end.

(** The body of the [for record in records] loop for one record, up to
    the row it appends ([None] when the record is skipped by
    [continue]). *)
Definition parse_record (record : Element) : M (option row) :=
  let* title := text_attr (find record (str "TITEL")) in
  if py_eq title FILLER_TITLE then ret None
  else
    let tx_day := find record (str "PR_AIRDATE") in
    let tx_time := find record (str "START") in
    let epg_description := find record (str "EPG") in
    let episode_id := find record (str "PR_CODE") in
    let prod_year := find record (str "JAHR") in
    let rating := find record (str "PLRATING") in
    let genre := find record (str "TEMATYKA") in
    let* _ := warn_if_none tx_day
      (str "Missing tag: PR_AIRDATE. TX DATE WILL BE EMPTY, CHECK OUTPUT!") in
    let* _ := warn_if_none tx_time
      (str "Missing tag: START. TX TIME WILL BE EMPTY, CHECK OUTPUT!") in
    let* _ := warn_if_none epg_description
      (str "Missing tag: EPG. EPG description will be empty.") in
    let* _ := warn_if_none episode_id
      (str "Missing tag: PR_CODE. Episode ID will be empty.") in
    let* _ := warn_if_none prod_year
      (str "Missing tag: JAHR. Production year field will be empty.") in
    let* _ := warn_if_none rating
      (str "Missing tag: PLRATING. Ratings field will be empty.") in
    let* _ := warn_if_none genre
      (str "Missing tag: TEMATYKA. Genre field will be empty.") in
    let tx_day_text := text_or_empty tx_day in
    let tx_time_text := text_or_empty tx_time in
    let epg_description_text := text_or_empty epg_description in
    let episode_id_text := text_or_empty episode_id in
    let prod_year_text := text_or_empty prod_year in
    let rating_text := text_or_empty rating in
    let genre_text := text_or_empty genre in
    let data_row :=
      [tx_day_text; tx_time_text; title; epg_description_text;
       episode_id_text; prod_year_text; rating_text; genre_text] in
    ret (Some data_row).

(** The loop of lines 112-160; [parsed_results] is the list built so
    far. *)
Fixpoint parse_records (records : list Element) (parsed_results : list row)
  : M (list row) :=
  match records with
  | [] => ret parsed_results
  | record :: rest =>
      let* r := parse_record record in
      match r with
      | None => parse_records rest parsed_results
      | Some data_row => parse_records rest (parsed_results ++ [data_row])
      end
  end.

Definition parse_xml_content (xml : xml_content) : M (list row) :=
  let* root := ET_fromstring xml in
  let records := findall root (str "prrecord") in
  let* _ := logger_info
    (str "Count of records: " ++ str_of_nat (length records)) in
  parse_records records [].

(* ===================================================================== *)
(** * The retry decorator (tenacity)                                      *)
(* ===================================================================== *)

(** The arguments of [@retry(...)].  The program passes [stop], [wait]
    and [retry]; it does not pass [reraise], whose default is [False]. *)
Record retrying := {
  stop_after_attempt : nat;
  wait_fixed : nat;
  retry_if_exception_type : exc_class;
  reraise : bool
}.

(** tenacity's [statistics] of a call: the number of the last attempt and
    the seconds slept between attempts. *)
Record statistics := { attempt_number : nat; idle_for : nat }.

(** The loop of [Retrying.__call__]: run the function; a result is
    returned; an exception that [retry] does not select is raised as it
    is; when [stop] says so the call ends with [RetryError] (or, with
    [reraise], with the last exception); otherwise it sleeps [wait]
    seconds and tries again.  [left] bounds the attempts that remain; it
    starts at [stop_after_attempt - 1], so it is [0] only when [stop]
    already holds. *)
Fixpoint attempts {A} (r : retrying) (fn : M A) (left : nat)
    (st : statistics) (w : world) : result A * world * statistics :=
  match fn w with
  | (Ok a, w1) => (Ok a, w1, st)
  | (Raise e, w1) =>
      if negb (isinstance e (retry_if_exception_type r)) then (Raise e, w1, st)
      else if (stop_after_attempt r <=? attempt_number st)%nat then
        (Raise (if reraise r then e else RetryErr e), w1, st)
      else
        match left with
        | O => (Raise (if reraise r then e else RetryErr e), w1, st)
        | S left' =>
            attempts r fn left'
              {| attempt_number := S (attempt_number st);
                 idle_for := (idle_for st + wait_fixed r)%nat |}
              (sleep (wait_fixed r) w1)
        end
  end.

Definition retry_call {A} (r : retrying) (fn : M A) (w : world)
  : result A * world * statistics :=
  attempts r fn (stop_after_attempt r - 1)
           {| attempt_number := 1; idle_for := 0 |} w.

(** The decorated function. *)
Definition retry {A} (r : retrying) (fn : M A) : M A :=
  fun w => fst (retry_call r fn w).

(** [@retry(stop=stop_after_attempt(5), wait=wait_fixed(120),
            retry=retry_if_exception_type(c))] *)
Definition retry_5_120 (c : exc_class) : retrying :=
  {| stop_after_attempt := 5; wait_fixed := 120;
     retry_if_exception_type := c; reraise := false |}.

(* ===================================================================== *)
(** * [fetch_url] (lines 44-49)                                           *)
(* ===================================================================== *)

(** [requests.get(url)]: one external call; what it returns is what the
    environment serves for the URL. *)
Definition requests_get (url : pystr) : M response :=
  let* _ := external (EvHttpGet url) in
  gets (fun w => web (env w) url).

Definition fetch_url_body (url : pystr) : M response :=
  let* response := requests_get url in
  let* _ := logger_info (str "Processing URL: " ++ url) in
  ret response.

Definition fetch_url (url : pystr) : M response :=
  retry (retry_5_120 RequestException) (fetch_url_body url).

(* ===================================================================== *)
(** * The worksheet (gspread)                                             *)
(* ===================================================================== *)

(** Columns A to H are 1 to 8. *)
Definition in_range (rg : a1_range) (rc : nat * nat) : bool :=
  match rg with
  | A2_H => (2 <=? rc.1)%nat && (1 <=? rc.2)%nat && (rc.2 <=? 8)%nat
  | Ai_Hi i => (rc.1 =? i)%nat && (1 <=? rc.2)%nat && (rc.2 <=? 8)%nat
  end.

Definition first_row (rg : a1_range) : nat :=
  match rg with
  | A2_H => 2%nat
  | Ai_Hi i => i
  end.

(** Clearing ranges empties every cell that lies in one of them. *)
Definition clear_ranges (ranges : list a1_range)
    (cells : gmap (nat * nat) pystr) : gmap (nat * nat) pystr :=
  filter (fun kv => existsb (fun rg => in_range rg kv.1) ranges = false) cells.

(** Writing a value to a cell: [None] (JSON null) leaves the cell as it
    is, the empty string empties it. *)
Definition write_cell (rc : nat * nat) (v : option pystr)
    (cells : gmap (nat * nat) pystr) : gmap (nat * nat) pystr :=
  match v with
  | None => cells
  | Some [] => delete rc cells
  | Some s => <[rc := s]> cells
  end.

Fixpoint write_row (r c : nat) (vals : row)
    (cells : gmap (nat * nat) pystr) : gmap (nat * nat) pystr :=
  match vals with
  | [] => cells
  | v :: vals' => write_row r (S c) vals' (write_cell (r, c) v cells)
  end.

Fixpoint write_rows (r : nat) (rows : list row)
    (cells : gmap (nat * nat) pystr) : gmap (nat * nat) pystr :=
  match rows with
  | [] => cells
  | vals :: rows' => write_rows (S r) rows' (write_row r 1 vals cells)
  end.

(** The values of an entry are written from the top left cell of its
    range. *)
Definition write_value_range (cells : gmap (nat * nat) pystr)
    (vr : value_range) : gmap (nat * nat) pystr :=
  write_rows (first_row (vr_range vr)) (vr_values vr) cells.

(** The service rejects an entry whose values do not fit its range: more
    than eight columns, or more than one row for a one-row range. *)
Definition fits (vr : value_range) : bool :=
  forallb (fun vals : row => (length vals <=? 8)%nat) (vr_values vr) &&
  match vr_range vr with
  | A2_H => true
  | Ai_Hi _ => (length (vr_values vr) <=? 1)%nat
  end.

(** The last row that has a cell in [m], 0 when there is none. *)
Definition last_row (m : gmap (nat * nat) pystr) : nat :=
  map_fold (fun rc _ acc => Nat.max rc.1 acc) 0%nat m.

(** The last column of row [r] that has a cell in [m]. *)
Definition last_col (m : gmap (nat * nat) pystr) (r : nat) : nat :=
  map_fold (fun rc _ acc => if (rc.1 =? r)%nat then Nat.max rc.2 acc else acc)
           0%nat m.

Definition cell_value (m : gmap (nat * nat) pystr) (rc : nat * nat) : pystr :=
  default [] (m !! rc).

(** Reading a range gives its rows from the first row of the range to the
    last one that is not empty; each row ends at its last cell that is not
    empty. *)
Definition read_range (rg : a1_range) (cells : gmap (nat * nat) pystr)
  : list (list pystr) :=
  let m := filter (fun kv => in_range rg kv.1 = true /\ kv.2 <> []) cells in
  List.map (fun r => List.map (fun c => cell_value m (r, c))
                              (seq 1 (last_col m r)))
           (seq (first_row rg) (last_row m + 1 - first_row rg)).

(** Reading a column gives its cells from row 1 to the last one that is
    not empty. *)
Definition read_col (col : nat) (cells : gmap (nat * nat) pystr)
  : list pystr :=
  let m := filter (fun kv => kv.1.2 = col /\ kv.2 <> []) cells in
  List.map (fun r => cell_value m (r, col)) (seq 1 (last_row m)).

(** [sheet.col_values(col)] *)
Definition col_values (col : nat) : M (list pystr) :=
  let* _ := external (EvColValues col) in
  gets (fun w => read_col col (sheet w)).

(** [sheet.batch_clear(ranges)] *)
Definition batch_clear (ranges : list a1_range) : M unit :=
  let* _ := external (EvBatchClear ranges) in
  modify (fun w => set_sheet (clear_ranges ranges (sheet w)) w).

(** [sheet.batch_update(data)]: all entries are written, or the request is
    rejected with [APIError] and nothing is written. *)
Definition batch_update (data : list value_range) : M unit :=
  let* _ := external (EvBatchUpdate data) in
  if forallb fits data
  then modify (fun w => set_sheet (fold_left write_value_range data (sheet w)) w)
  else raise (Exc APIError).

(** [sheet.get(range)] *)
Definition sheet_get (rg : a1_range) : M (list (list pystr)) :=
  let* _ := external (EvSheetGet rg) in
  gets (fun w => read_range rg (sheet w)).

(* ===================================================================== *)
(** * [update_google_sheet] (lines 52-66)                                 *)
(* ===================================================================== *)

(** [for i, row in enumerate(data_to_update, start=i): batch_update.append(..)] *)
Fixpoint enumerate_rows (data_to_update : list row) (i : nat)
    (batch : list value_range) : list value_range :=
  match data_to_update with
  | [] => batch
  | r :: rest =>
      enumerate_rows rest (S i)
        (batch ++ [{| vr_range := Ai_Hi i; vr_values := [r] |}])
  end.

Definition update_google_sheet_body (data_to_update : list row) : M unit :=
  let* _ := batch_clear [A2_H] in
  let batch := enumerate_rows data_to_update 2 [] in
  let* _ := batch_update batch in
  logger_info (str "Sheet updated successfully.").

Definition update_google_sheet (data_to_update : list row) : M unit :=
  retry (retry_5_120 APIError) (update_google_sheet_body data_to_update).

(* ===================================================================== *)
(** * The [utf-16] codec                                                  *)
(* ===================================================================== *)

(** The byte order mark of a little-endian machine, which the [utf-16]
    encoder writes at the start of a stream. *)
Definition BOM_LE : list Z := [255; 254].

Definition is_high_surrogate (u : Z) : bool := (0xD800 <=? u) && (u <=? 0xDBFF).
Definition is_low_surrogate (u : Z) : bool := (0xDC00 <=? u) && (u <=? 0xDFFF).

(** A code point that UTF-16 can encode: a Unicode scalar value.  A
    Python [str] can also hold lone surrogates, which it cannot. *)
Definition is_scalar (c : Z) : bool :=
  (0 <=? c) && (c <=? 0x10FFFF) &&
  negb (is_high_surrogate c) && negb (is_low_surrogate c).

(** The 16-bit code units of a code point. *)
Definition code_units (c : Z) : option (list Z) :=
  if negb (is_scalar c) then None
  else if c <? 0x10000 then Some [c]
  else Some [0xD800 + Z.shiftr (c - 0x10000) 10;
             0xDC00 + Z.land (c - 0x10000) 0x3FF].

(** A code unit as two bytes, low byte first. *)
Definition unit_bytes_le (u : Z) : list Z := [Z.land u 255; Z.shiftr u 8].

(** [s.encode('utf-16-le')]; [None] stands for [UnicodeEncodeError]. *)
Fixpoint utf16_le_encode (s : pystr) : option (list Z) :=
  match s with
  | [] => Some []
  | c :: s' =>
      match code_units c, utf16_le_encode s' with
      | Some us, Some bs => Some (List.flat_map unit_bytes_le us ++ bs)
      | _, _ => None
      end
  end.

(** [sep.join(parts)] *)
Fixpoint join (sep : pystr) (parts : list pystr) : pystr :=
  match parts with
  | [] => []
  | [x] => x
  | x :: rest => x ++ sep ++ join sep rest
  end.

Definition TAB : Z := 9.
Definition LF : Z := 10.

(* ===================================================================== *)
(** * [save_data_to_txt] (lines 165-175)                                  *)
(* ===================================================================== *)

(** [file_path.exists()] *)
Definition path_exists (file_path : pystr) : M bool :=
  gets (fun w => bool_decide (is_Some (fs w !! file_path))).

(** [file_path.unlink()] *)
Definition unlink (file_path : pystr) : M unit :=
  modify (fun w => set_fs (delete file_path (fs w)) w).

(** [file_path.open('w', encoding='utf-16')]: the file is created, or
    emptied when it exists. *)
Definition open_w (file_path : pystr) : M unit :=
  modify (fun w => set_fs (<[file_path := []]> (fs w)) w).

(** [file.write(text)] on a file opened with [encoding='utf-16']: the
    first write of the stream starts with the byte order mark; the line
    separator of the platform is taken to be the line feed, so "\n" is
    written as it is.  A string that cannot be encoded raises
    [UnicodeEncodeError] and nothing of it is written. *)
Definition file_write (file_path : pystr) (start_of_stream : bool)
    (text : pystr) : M unit :=
  match utf16_le_encode text with
  | None => raise (Exc UnicodeEncodeError)
  | Some bs =>
      modify (fun w =>
        set_fs (<[file_path :=
                    default [] (fs w !! file_path) ++
                    (if start_of_stream then BOM_LE else []) ++ bs]> (fs w)) w)
  end.

(** [for row in data_to_save: file.write('\t'.join(row) + '\n')] *)
Fixpoint write_lines (file_path : pystr) (data_to_save : list (list pystr))
    (start_of_stream : bool) : M unit :=
  match data_to_save with
  | [] => ret tt
  | r :: rest =>
      let* _ := file_write file_path start_of_stream (join [TAB] r ++ [LF]) in
      write_lines file_path rest false
  end.

(** [output_dir / filename] *)
Definition path_join (output_dir filename : pystr) : pystr :=
  output_dir ++ str "/" ++ filename.

(** [path.name]: the last component of the path. *)
Fixpoint path_name (path : pystr) : pystr :=
  match path with
  | [] => []
  | c :: rest =>
      if existsb (Z.eqb 47) rest then path_name rest
      else if c =? 47 then rest else path
  end.

Definition save_data_to_txt (data_to_save : list (list pystr))
    (output_dir : pystr) : M pystr :=
  let* date := gets (fun w => CURRENT_DATE (env w)) in
  let filename := str "TVPPol_output_" ++ date ++ str ".txt" in
  let file_path := path_join output_dir filename in
  let* there := path_exists file_path in
  let* _ := when there (unlink file_path) in
  let* _ := open_w file_path in
  let* _ := write_lines file_path data_to_save true in
  let* _ := logger_info (str "Data saved to " ++ file_path) in
  ret file_path.

(* ===================================================================== *)
(** * [send_email_with_attachment] (lines 69-101)                         *)
(* ===================================================================== *)

(** [f"tvp_scraper_{CURRENT_DATE}.log"] *)
Definition LOG_FILE (e : environment) : pystr :=
  str "tvp_scraper_" ++ CURRENT_DATE e ++ str ".log".

(** [open(file_path, 'rb').read()] *)
Definition read_bytes (file_path : pystr) : M (list Z) :=
  fun w =>
    match fs w !! file_path with
    | Some bs => (Ok bs, w)
    | None => (Raise (Exc FileNotFoundError), w)
    end.

Definition send_email_body (file_path : pystr) : M unit :=
  let* e := gets env in
  let* payload := read_bytes file_path in
  let* log_payload := gets log in
  let msg :=
    {| mail_from := sender_email e;
       mail_to := receiver_email e;
       mail_subject := email_subject e;
       mail_cc := join (str ", ") (cc_list e);
       mail_body := email_body e;
       snapshot_attachment := (path_name file_path, payload);
       log_attachment := (path_name (LOG_FILE e), log_payload) |} in
  let* _ := external EvSmtpConnect in
  let* _ := external EvStarttls in
  let* _ := external EvLogin in
  let* _ := external EvSendmail in
  let* _ := modify (add_mail msg) in
  let* _ := external EvQuit in
  logger_info (str "Email sent successfully").

Definition send_email_with_attachment (file_path : pystr) : M unit :=
  retry (retry_5_120 SMTPException) (send_email_body file_path).

(* ===================================================================== *)
(** * The run (lines 182-197)                                             *)
(* ===================================================================== *)

Definition COLUMN_INDEX : nat := 13.

(** The loop of lines 185-188; [all_results] is the accumulator. *)
Fixpoint fetch_all (urls_list : list pystr) (all_results : list row)
  : M (list row) :=
  match urls_list with
  | [] => ret all_results
  | url :: rest =>
      if truthy url then
        let* response := fetch_url url in
        let* rows := parse_xml_content (content response) in
        fetch_all rest (all_results ++ rows)
      else fetch_all rest all_results
  end.

(** Lines 190-197, from the accumulated rows on. *)
Definition publish (all_results : list row) : M unit :=
  let* _ := update_google_sheet all_results in
  let* sheet_data := sheet_get A2_H in
  let* output_directory := gets (fun w => cwd (env w)) in
  let* saved_file_path := save_data_to_txt sheet_data output_directory in
  send_email_with_attachment saved_file_path.

Definition main : M unit :=
  let* column := col_values COLUMN_INDEX in
  let urls_list := drop 1 column in
  let* all_results := fetch_all urls_list [] in
  publish all_results.

(* ===================================================================== *)
(** * Reading a snapshot back                                             *)
(* ===================================================================== *)

(** The program has no reader.  The definitions of this section follow
    the words of the specification: a snapshot is read back by decoding
    it as UTF-16, splitting the text into lines and splitting each line
    on the tab character. *)

(** The code units of a byte string, low byte first or high byte first;
    [None] when a byte is left over. *)
Fixpoint units_of_bytes (big_endian : bool) (bs : list Z) : option (list Z) :=
  match bs with
  | [] => Some []
  | [_] => None
  | b0 :: b1 :: rest =>
      match units_of_bytes big_endian rest with
      | Some us =>
          Some ((if big_endian then b0 * 256 + b1 else b0 + b1 * 256) :: us)
      | None => None
      end
  end.

(** The code points of a sequence of code units; [None] on a surrogate
    that is not part of a pair. *)
Fixpoint code_points (us : list Z) : option pystr :=
  match us with
  | [] => Some []
  | u :: rest =>
      if is_high_surrogate u then
        match rest with
        | l :: rest' =>
            if is_low_surrogate l then
              match code_points rest' with
              | Some s =>
                  Some (0x10000 + (u - 0xD800) * 1024 + (l - 0xDC00) :: s)
              | None => None
              end
            else None
        | [] => None
        end
      else if is_low_surrogate u then None
      else
        match code_points rest with
        | Some s => Some (u :: s)
        | None => None
        end
  end.

(** [bs.decode('utf-16')]: a byte order mark selects the byte order and is
    dropped; without one the bytes are little-endian. *)
Definition utf16_decode (bs : list Z) : option pystr :=
  match bs with
  | 255 :: 254 :: rest => units_of_bytes false rest ≫= code_points
  | 254 :: 255 :: rest => units_of_bytes true rest ≫= code_points
  | _ => units_of_bytes false bs ≫= code_points
  end.

(** [s.split(sep)] for a one-character separator. *)
Fixpoint split_on (sep : Z) (s : pystr) : list pystr :=
  match s with
  | [] => [[]]
  | c :: s' =>
      if c =? sep then [] :: split_on sep s'
      else
        match split_on sep s' with
        | p :: ps => (c :: p) :: ps
        | [] => [[c]]
        end
  end.

(** The lines of a text, each ended by a line feed; a last line without
    one counts as well. *)
Definition split_lines (t : pystr) : list pystr :=
  let ps := split_on LF t in
  match last ps with
  | Some [] => removelast ps
  | _ => ps
  end.

Definition read_snapshot (bs : list Z) : option (list (list pystr)) :=
  match utf16_decode bs with
  | Some t => Some (List.map (split_on TAB) (split_lines t))
  | None => None
  end.

(* ===================================================================== *)
(** * Vocabulary of the properties                                        *)
(* ===================================================================== *)

(** ** Records and rows *)

(** The records of a feed: what line 106 finds. *)
Definition records_of (root : Element) : list Element :=
  findall root (str "prrecord").

Definition has_title (record : Element) : bool :=
  bool_decide (is_Some (find record (str "TITEL"))).

(** The text of the title of a record ([None] also when there is no
    title element). *)
Definition title_text (record : Element) : option pystr :=
  find record (str "TITEL") ≫= text.

(** A filler record: its title is the sentinel of line 115. *)
Definition is_filler (record : Element) : bool :=
  py_eq (title_text record) FILLER_TITLE.

(** The field a record gives for an optional tag. *)
Definition field (record : Element) (name : string) : option pystr :=
  match find record (str name) with
  | Some el => text el
  | None => Some []
  end.

(** The row of a record, fields in the order of lines 149-158. *)
Definition row_of (record : Element) : row :=
  [field record "PR_AIRDATE"; field record "START"; title_text record;
   field record "EPG"; field record "PR_CODE"; field record "JAHR";
   field record "PLRATING"; field record "TEMATYKA"].

(** The optional tags with the warning logged when one is missing, in the
    order of lines 126-139. *)
Definition missing_warnings : list (string * string) :=
  [("PR_AIRDATE", "Missing tag: PR_AIRDATE. TX DATE WILL BE EMPTY, CHECK OUTPUT!");
   ("START", "Missing tag: START. TX TIME WILL BE EMPTY, CHECK OUTPUT!");
   ("EPG", "Missing tag: EPG. EPG description will be empty.");
   ("PR_CODE", "Missing tag: PR_CODE. Episode ID will be empty.");
   ("JAHR", "Missing tag: JAHR. Production year field will be empty.");
   ("PLRATING", "Missing tag: PLRATING. Ratings field will be empty.");
   ("TEMATYKA", "Missing tag: TEMATYKA. Genre field will be empty.")]%string.

(** The warnings a record that is kept adds to the log. *)
Definition warnings_of (record : Element) : list log_record :=
  List.flat_map
    (fun tm : string * string =>
       match find record (str tm.1) with
       | None => [(WARNING, str tm.2)]
       | Some _ => []
       end)
    missing_warnings.

(** The records that are kept: those that are not fillers. *)
Definition kept (records : list Element) : list Element :=
  List.filter (fun r => negb (is_filler r)) records.

(** The world with [rs] appended to the log. *)
Definition add_logs (rs : list log_record) (w : world) : world :=
  {| env := env w; sheet := sheet w; fs := fs w; log := log w ++ rs;
     outbox := outbox w; trace := trace w; tick := tick w |}.

(** A row all of whose fields are strings. *)
Definition all_strings (r : row) : bool :=
  forallb (fun v : option pystr => bool_decide (is_Some v)) r.

(** ** Retries *)

(** The outcome of [n] attempts of [fn] in a row that every time raise an
    exception the policy [r] retries, with the policy's wait between
    them: the exception of the last attempt and the world after it.
    [None] when one of the [n] attempts does not fail in this way. *)
Fixpoint failed_attempts {A} (r : retrying) (fn : M A) (n : nat) (w : world)
  : option (exn * world) :=
  match n with
  | O => None
  | S n' =>
      match fn w with
      | (Raise e, w1) =>
          if isinstance e (retry_if_exception_type r) then
            match n' with
            | O => Some (e, w1)
            | S _ => failed_attempts r fn n' (sleep (wait_fixed r) w1)
            end
          else None
      | (Ok _, _) => None
      end
  end.

(** The sleeps of a run, in order. *)
Definition sleeps (w : world) : list nat :=
  List.flat_map (fun ev => match ev with EvSleep s => [s] | _ => [] end)
                (trace w).

(** ** What a run leaves behind *)

(** The calls that only read: fetching a URL and reading the sheet's URL
    column; sleeping changes nothing either. *)
Definition reads_only (ev : event) : bool :=
  match ev with
  | EvHttpGet _ | EvColValues _ | EvSleep _ => true
  | _ => false
  end.

(** The calls of a run that write the sheet, read it back or talk to the
    mail relay. *)
Definition publishing_calls (w : world) : list event :=
  List.filter (fun ev => negb (reads_only ev)) (trace w).

(** The cell that synchronising [data] leaves at [rc] of A2:H: the field
    of the row for that sheet row, when it is a string that is not
    empty. *)
Definition synced_cell (data : list row) (rc : nat * nat) : option pystr :=
  match data !! (rc.1 - 2)%nat ≫= (fun r : row => r !! (rc.2 - 1)%nat) with
  | Some (Some (c :: s)) => Some (c :: s)
  | _ => None
  end.

(** ** Snapshots *)

(** The line of a record and the text of a dataset. *)
Definition line_of (r : list pystr) : pystr := join [TAB] r ++ [LF].
Definition snapshot_text (data : list (list pystr)) : pystr :=
  List.flat_map line_of data.

(** The bytes of a snapshot of [data]: nothing for no rows, else the byte
    order mark and the lines; [None] when a field cannot be encoded. *)
Definition snapshot_bytes (data : list (list pystr)) : option (list Z) :=
  match data with
  | [] => Some []
  | _ :: _ =>
      match utf16_le_encode (snapshot_text data) with
      | Some bs => Some (BOM_LE ++ bs)
      | None => None
      end
  end.

(** The path [save_data_to_txt] writes in directory [dir]. *)
Definition snapshot_file (e : environment) (dir : pystr) : pystr :=
  path_join dir (str "TVPPol_output_" ++ CURRENT_DATE e ++ str ".txt").

(** A field that survives the round trip: it has neither a tab nor a line
    feed, and UTF-16 can encode it. *)
Definition plain_field (f : pystr) : bool :=
  forallb (fun c => is_scalar c && negb (c =? TAB) && negb (c =? LF)) f.

(** A record of eight plain fields. *)
Definition plain_record (r : list pystr) : bool :=
  (length r =? 8)%nat && forallb plain_field r.

(** The columns of a row that come from optional tags (column 2 is the
    title). *)
Definition optional_columns : list (nat * string) :=
  [(0, "PR_AIRDATE"); (1, "START"); (3, "EPG"); (4, "PR_CODE");
   (5, "JAHR"); (6, "PLRATING"); (7, "TEMATYKA")]%nat%string.

(** ** Frames *)

(** [m] leaves the view [f] of the world as it is, whatever it returns
    or raises. *)
Definition preserves {X A} (f : world -> X) (m : M A) : Prop :=
  forall w, f (snd (m w)) = f w.

(** The statistics of a call that exhausted five attempts with 120
    seconds between them, and of a call that ended at its first. *)
Definition five_attempts : statistics :=
  {| attempt_number := 5; idle_for := 480 |}.
Definition one_attempt : statistics :=
  {| attempt_number := 1; idle_for := 0 |}.

(** ** Cells *)

(** The content of a cell after [v] is written to it. *)
Definition written (v old : option pystr) : option pystr :=
  match v with
  | None => old
  | Some [] => None
  | Some s => Some s
  end.

(** The content of cell [rc] after the rows [data] are written from row
    [i] down, each from column A. *)
Definition cell_after (data : list row) (i : nat)
    (cells : gmap (nat * nat) pystr) (rc : nat * nat) : option pystr :=
  if bool_decide (i <= rc.1 /\ 1 <= rc.2)%nat then
    match data !! (rc.1 - i)%nat ≫= (fun vals : row => vals !! (rc.2 - 1)%nat) with
    | Some v => written v (cells !! rc)
    | None => cells !! rc
    end
  else cells !! rc.

(** ** Runs without failures *)

(** No external call of the run fails. *)
Definition calm_world (w : world) : Prop :=
  forall n, fault (env w) n = None.

(** A URL that adds nothing to the dataset: it is empty and skipped, or
    its feed has only filler records. *)
Definition adds_no_row (e : environment) (url : pystr) : Prop :=
  truthy url = false \/
  exists root, content (web e url) = WellFormed root
               /\ forallb is_filler (records_of root) = true.

(** ** Feeds and messages *)

(** The rows of the feed that [url] serves in the environment [e]. *)
Definition feed_rows (e : environment) (url : pystr) : list row :=
  match content (web e url) with
  | WellFormed root => List.map row_of (kept (records_of root))
  | Malformed => []
  end.

(** The feed of [url] is well-formed and all its records have a title. *)
Definition feed_titled (e : environment) (url : pystr) : bool :=
  match content (web e url) with
  | WellFormed root => forallb has_title (records_of root)
  | Malformed => false
  end.

(** The URLs of a list that are fetched: those that are not empty. *)
Definition fetched (urls_list : list pystr) : list pystr :=
  List.filter truthy urls_list.

(** The message [send_email_with_attachment] builds for the file at
    [file_path] with content [payload] when the log is [logged]. *)
Definition message_of (e : environment) (file_path : pystr)
    (payload : list Z) (logged : list log_record) : email :=
  {| mail_from := sender_email e;
     mail_to := receiver_email e;
     mail_subject := email_subject e;
     mail_cc := join (str ", ") (cc_list e);
     mail_body := email_body e;
     snapshot_attachment := (path_name file_path, payload);
     log_attachment := (path_name (LOG_FILE e), logged) |}.

(** A row all of whose eight fields are strings that are not empty. *)
Definition complete_row (r : row) : bool :=
  (length r =? 8)%nat &&
  forallb (fun v : option pystr =>
             match v with Some (_ :: _) => true | _ => false end) r.

(** The strings of a row; [None] reads as the empty string. *)
Definition row_strings (r : row) : list pystr :=
  List.map (fun v : option pystr => default [] v) r.

(* ===================================================================== *)
(** * Sample feeds, environments and worlds                               *)
(* ===================================================================== *)

(** A leaf element [<name>txt</name>]. *)
Definition leaf (name : string) (txt : pystr) : Element :=
  Elem (str name) (Some txt) [].

(** An element without text, [<name/>]. *)
Definition empty_leaf (name : string) : Element :=
  Elem (str name) None [].

Definition record_show_a : Element :=
  Elem (str "prrecord") None
    [leaf "PR_AIRDATE" (str "20240101"); leaf "START" (str "1000");
     leaf "TITEL" (str "Show A"); leaf "EPG" (str "Desc");
     leaf "PR_CODE" (str "EP1"); leaf "JAHR" (str "2020");
     leaf "PLRATING" (str "PG"); leaf "TEMATYKA" (str "Drama")].

Definition record_filler : Element :=
  Elem (str "prrecord") None
    [leaf "PR_AIRDATE" (str "20240101"); leaf "TITEL" FILLER_TITLE].

(** A record with no [START], no [JAHR] and an [<EPG/>] without text. *)
Definition record_sparse : Element :=
  Elem (str "prrecord") None
    [leaf "PR_AIRDATE" (str "20240102"); leaf "TITEL" (str "Show B");
     empty_leaf "EPG"; leaf "PR_CODE" (str "EP2");
     leaf "PLRATING" (str "G"); leaf "TEMATYKA" (str "News")].

(** A record without a [TITEL]. *)
Definition record_untitled : Element :=
  Elem (str "prrecord") None [leaf "PR_AIRDATE" (str "20240103")].

Definition feed (records : list Element) : xml_content :=
  WellFormed (Elem (str "programs") None records).

Definition feed_a : xml_content :=
  feed [record_show_a; record_filler; record_sparse].
Definition feed_filler_only : xml_content := feed [record_filler].
Definition feed_untitled : xml_content := feed [record_show_a; record_untitled].

Definition url_a : pystr := str "http://a".
Definition url_b : pystr := str "http://b".
Definition url_bad : pystr := str "not a url".

(** What the sample URLs serve. *)
Definition sample_web (url : pystr) : response :=
  {| status_code := 200;
     content := if bool_decide (url = url_a) then feed_a
                else if bool_decide (url = url_b) then feed_filler_only
                else feed_untitled |}.

(** An environment in which no external call fails. *)
Definition calm : environment :=
  {| CURRENT_DATE := str "20240101"; cwd := str "/work";
     sender_email := str "from@example.org";
     receiver_email := str "to@example.org";
     cc_list := [str "cc1@example.org"; str "cc2@example.org"];
     email_subject := str "TVP - 20240101"; email_body := str "Attached.";
     web := sample_web; fault := fun _ => None |}.

(** The same environment in which every external call raises [e]. *)
Definition failing (e : exn) : environment :=
  {| CURRENT_DATE := CURRENT_DATE calm; cwd := cwd calm;
     sender_email := sender_email calm; receiver_email := receiver_email calm;
     cc_list := cc_list calm; email_subject := email_subject calm;
     email_body := email_body calm; web := web calm;
     fault := fun _ => Some e |}.

Definition snapshot_path : pystr := str "/work/TVPPol_output_20240101.txt".

(** The cells of column [col] from row [r] down. *)
Fixpoint column_cells (col r : nat) (vals : list pystr)
    (cells : gmap (nat * nat) pystr) : gmap (nat * nat) pystr :=
  match vals with
  | [] => cells
  | v :: vals' => column_cells col (S r) vals' (write_cell (r, col) (Some v) cells)
  end.

Definition old_row (n : string) : row :=
  List.map (fun f => Some (str (f ++ n)))
           ["date"; "time"; "title"; "epg"; "code"; "year"; "rating"; "genre"]%string.

(** A sheet with a header row, three rows of an earlier run in A2:H4 and
    the URLs [urls] in column M from row 2. *)
Definition sample_cells (urls : list pystr) : gmap (nat * nat) pystr :=
  column_cells 13 1 (str "URL" :: urls)
    (write_rows 1 [old_row "-header"; old_row "1"; old_row "2"; old_row "3"] ∅).

(** A world before the run: nothing logged, sent or called yet, and a
    snapshot of an earlier run of the same day on disk. *)
Definition world_with (e : environment) (urls : list pystr) : world :=
  {| env := e; sheet := sample_cells urls;
     fs := {[ snapshot_path := [255; 254; 111; 0; 10; 0] ]};
     log := []; outbox := []; trace := []; tick := 0 |}.

(** Two records of eight plain fields; the second has a title with a
    letter outside ASCII and a description with a code point outside the
    basic plane (U+1F4FA), which UTF-16 encodes as a surrogate pair. *)
Definition plain_data : list (list pystr) :=
  [List.map str ["20240101"; "1000"; "Show A"; "Desc"; "EP1"; "2020"; "PG";
                 "Drama"]%string;
   [str "20240102"; str "1100"; FILLER_TITLE; [128250]; str "EP2"; [];
    str "G"; []]].

(** One record of eight fields whose title has a tab in it, and one whose
    description has a line feed in it. *)
Definition tabbed_data : list (list pystr) :=
  [[str "20240101"; str "1000"; str "Show" ++ [9] ++ str "A"; str "Desc";
    str "EP1"; str "2020"; str "PG"; str "Drama"]].
Definition two_line_data : list (list pystr) :=
  [[str "20240101"; str "1000"; str "Show A"; str "Line 1" ++ [10] ++ str "Line 2";
    str "EP1"; str "2020"; str "PG"; str "Drama"]].

(** An environment in which the sheet answers (the first external call, the
    read of the URL column) and every later call fails with [e]. *)
Definition failing_after_first (e : exn) : environment :=
  {| CURRENT_DATE := CURRENT_DATE calm; cwd := cwd calm;
     sender_email := sender_email calm; receiver_email := receiver_email calm;
     cc_list := cc_list calm; email_subject := email_subject calm;
     email_body := email_body calm; web := web calm;
     fault := fun n => match n with O => None | S _ => Some e end |}.

(** The environment [calm] with another oracle of failures. *)
Definition with_fault (f : nat -> option exn) : environment :=
  {| CURRENT_DATE := CURRENT_DATE calm; cwd := cwd calm;
     sender_email := sender_email calm; receiver_email := receiver_email calm;
     cc_list := cc_list calm; email_subject := email_subject calm;
     email_body := email_body calm; web := web calm; fault := f |}.

(** Only the external call number [k] fails, with [e]. *)
Definition failing_only (k : nat) (e : exn) : environment :=
  with_fault (fun n => if (n =? k)%nat then Some e else None).

(** The first [k] external calls fail with [e], the later ones do not. *)
Definition failing_before (k : nat) (e : exn) : environment :=
  with_fault (fun n => if (n <? k)%nat then Some e else None).

(** A dataset whose second record has a lone surrogate (U+D800) in its
    title, which UTF-16 cannot encode. *)
Definition unencodable_data : list (list pystr) :=
  [List.map str ["20240101"; "1000"; "Show A"; "Desc"; "EP1"; "2020"; "PG";
                 "Drama"]%string;
   [str "20240102"; str "1100"; [55296]; str "Desc"; str "EP2"; str "2021";
    str "G"; str "News"];
   List.map str ["20240103"; "1200"; "Show C"; "Desc"; "EP3"; "2022"; "PG";
                 "Drama"]%string].

(** The dataset of the scenario of the specification: one complete row. *)
Definition scenario_data : list row :=
  [List.map (fun f => Some (str f))
            ["20240101"; "1000"; "Show A"; "Desc"; "EP1"; "2020"; "PG";
             "Drama"]%string].

(** An environment in which nothing fails and every URL serves a feed of
    one complete record and one filler. *)
Definition calm_complete : environment :=
  {| CURRENT_DATE := CURRENT_DATE calm; cwd := cwd calm;
     sender_email := sender_email calm; receiver_email := receiver_email calm;
     cc_list := cc_list calm; email_subject := email_subject calm;
     email_body := email_body calm;
     web := fun _ => {| status_code := 200;
                        content := feed [record_show_a; record_filler] |};
     fault := fun _ => None |}.

(* ===================================================================== *)
(** * Running computations step by step                                   *)
(* ===================================================================== *)

(** Projections of a world that was changed by the setters. *)
Ltac wsimpl :=
  unfold sleep;
  cbn [sheet fs log outbox trace tick env set_sheet set_fs add_log add_logs
       add_mail add_event next_tick].
Ltac wsimpl_in H :=
  unfold sleep in H;
  cbn [sheet fs log outbox trace tick env set_sheet set_fs add_log add_logs
       add_mail add_event next_tick] in H.

Lemma bind_ok {A B} (m : M A) (k : A -> M B) w a w1 :
  m w = (Ok a, w1) -> bind m k w = k a w1.
Proof. intros H. unfold bind. now rewrite H. Qed.

Lemma bind_raise {A B} (m : M A) (k : A -> M B) w e w1 :
  m w = (Raise e, w1) -> bind m k w = (Raise e, w1).
Proof. intros H. unfold bind. now rewrite H. Qed.

Lemma run_ok {A} (m : M A) w a : fst (m w) = Ok a -> m w = (Ok a, snd (m w)).
Proof. destruct (m w) as [r w1]. simpl. now intros ->. Qed.

Lemma run_raise {A} (m : M A) w e :
  fst (m w) = Raise e -> m w = (Raise e, snd (m w)).
Proof. destruct (m w) as [r w1]. simpl. now intros ->. Qed.


Lemma add_logs_nil w : add_logs [] w = w.
Proof. destruct w. unfold add_logs. simpl. now rewrite app_nil_r. Qed.

Lemma add_logs_add_logs rs1 rs2 w :
  add_logs rs2 (add_logs rs1 w) = add_logs (rs1 ++ rs2) w.
Proof. unfold add_logs. simpl. now rewrite app_assoc. Qed.

Lemma add_log_add_logs r w : add_log r w = add_logs [r] w.
Proof. reflexivity. Qed.

(* ===================================================================== *)
(** * The parser                                                          *)
(* ===================================================================== *)

Lemma warn_if_none_run x msg w :
  warn_if_none x msg w =
  (Ok tt, add_logs (match x with None => [(WARNING, msg)] | Some _ => [] end) w).
Proof.
  destruct x; simpl.
  - now rewrite add_logs_nil.
  - reflexivity.
Qed.

(** What the loop body does with one record. *)
Lemma parse_record_run record w :
  parse_record record w =
  if has_title record then
    if is_filler record then (Ok None, w)
    else (Ok (Some (row_of record)), add_logs (warnings_of record) w)
  else (Raise (Exc AttributeError), w).
Proof.
  unfold parse_record, has_title, is_filler, title_text.
  destruct (find record (str "TITEL")) as [t |] eqn:Ht; simpl.
  2: reflexivity.
  unfold bind at 1. simpl.
  destruct (py_eq (text t) FILLER_TITLE); [reflexivity |].
  repeat (rewrite (bind_ok _ _ _ _ _ (warn_if_none_run _ _ _))).
  unfold ret. f_equal.
  - unfold row_of, field, title_text, text_or_empty. rewrite Ht. reflexivity.
  - rewrite !add_logs_add_logs. unfold warnings_of. simpl.
    rewrite app_nil_r. rewrite !app_assoc. reflexivity.
Qed.

Lemma kept_cons r records :
  kept (r :: records) = if is_filler r then kept records else r :: kept records.
Proof. unfold kept. simpl. now destruct (is_filler r). Qed.

(** The loop over records that all have a title. *)
Lemma parse_records_titled records : forall acc w,
  forallb has_title records = true ->
  parse_records records acc w =
  (Ok (acc ++ List.map row_of (kept records)),
   add_logs (List.flat_map warnings_of (kept records)) w).
Proof.
  induction records as [| r records IH]; intros acc w H.
  - simpl. unfold ret. now rewrite app_nil_r, add_logs_nil.
  - simpl in H. apply andb_prop in H as [Hr Hrs].
    rewrite kept_cons. cbn [parse_records].
    unfold bind. rewrite parse_record_run, Hr.
    destruct (is_filler r).
    + now apply IH.
    + rewrite IH by assumption. simpl.
      rewrite add_logs_add_logs, <- app_assoc. reflexivity.
Qed.

(** The outcome of the loop, whether or not a title is missing. *)
Lemma parse_records_outcome records : forall acc w,
  fst (parse_records records acc w) =
  if forallb has_title records
  then Ok (acc ++ List.map row_of (kept records))
  else Raise (Exc AttributeError).
Proof.
  induction records as [| r records IH]; intros acc w.
  - simpl. now rewrite app_nil_r.
  - rewrite kept_cons. cbn [parse_records forallb].
    unfold bind. rewrite parse_record_run.
    destruct (has_title r); simpl; [| reflexivity].
    destruct (is_filler r).
    + apply IH.
    + rewrite IH. destruct (forallb has_title records); [| reflexivity].
      simpl. now rewrite <- app_assoc.
Qed.

Lemma parse_xml_content_titled root w :
  forallb has_title (records_of root) = true ->
  parse_xml_content (WellFormed root) w =
  (Ok (List.map row_of (kept (records_of root))),
   add_logs ((INFO, str "Count of records: " ++
                    str_of_nat (length (records_of root)))
             :: List.flat_map warnings_of (kept (records_of root))) w).
Proof.
  intros H. unfold parse_xml_content. simpl.
  unfold bind at 1. unfold ret at 1.
  unfold bind, logger_info, modify. fold (records_of root).
  rewrite parse_records_titled by assumption.
  rewrite add_log_add_logs, add_logs_add_logs. reflexivity.
Qed.

Lemma parse_xml_content_outcome root w :
  fst (parse_xml_content (WellFormed root) w) =
  if forallb has_title (records_of root)
  then Ok (List.map row_of (kept (records_of root)))
  else Raise (Exc AttributeError).
Proof.
  unfold parse_xml_content. simpl.
  unfold bind at 1. unfold ret at 1.
  unfold bind, logger_info, modify. fold (records_of root).
  apply (parse_records_outcome (records_of root) []).
Qed.

Lemma length_kept records :
  length (kept records) =
  (length records - length (List.filter is_filler records))%nat.
Proof.
  unfold kept. induction records as [| r records IH]; simpl; [reflexivity |].
  destruct (is_filler r); simpl; rewrite IH.
  - reflexivity.
  - assert (length (List.filter is_filler records) <= length records)%nat
      by apply List.filter_length_le.
    lia.
Qed.

Lemma kept_incl records record :
  In record (kept records) -> In record records /\ is_filler record = false.
Proof.
  unfold kept. rewrite List.filter_In. intros [H1 H2]. split; [assumption |].
  now destruct (is_filler record).
Qed.

(** C1 (as amended).  For a feed in which every record has a title
    element, [parse_xml_content] returns one row of eight fields for each
    record that is not a filler, in document order, and nothing for the
    fillers: the rows are the rows of the kept records, the log gets the
    count of all records and then only the warnings of the kept records,
    and the number of rows is the number of records minus the number of
    fillers. *)
Theorem parse_one_row_per_kept_record (root : Element) (w : world) :
  forallb has_title (records_of root) = true ->
  parse_xml_content (WellFormed root) w =
    (Ok (List.map row_of (kept (records_of root))),
     add_logs ((INFO, str "Count of records: " ++
                      str_of_nat (length (records_of root)))
               :: List.flat_map warnings_of (kept (records_of root))) w)
  /\ Forall (fun r : row => length r = 8%nat)
            (List.map row_of (kept (records_of root)))
  /\ length (List.map row_of (kept (records_of root))) =
     (length (records_of root) -
      length (List.filter is_filler (records_of root)))%nat.
Proof.
  intros H. split; [now apply parse_xml_content_titled |]. split.
  - apply List.Forall_forall. intros r Hr.
    apply List.in_map_iff in Hr as [record [<- _]]. reflexivity.
  - rewrite List.length_map. apply length_kept.
Qed.

Lemma parse_one_row_per_kept_record_witness :
  let root := Elem (str "programs") None
                [record_show_a; record_filler; record_sparse] in
  forallb has_title (records_of root) = true
  /\ fst (parse_xml_content (WellFormed root) (world_with calm [])) =
     Ok [row_of record_show_a; row_of record_sparse].
Proof.
  intros root. split; [reflexivity |].
  rewrite (proj1 (parse_one_row_per_kept_record root (world_with calm [])
                    eq_refl)).
  reflexivity.
Defined.

(** C1, the claim as stated, fails: a feed of two records, neither a
    filler, one of them without a title, gives no rows at all; the call
    raises [AttributeError]. *)
Lemma parse_untitled_feed_emits_nothing :
  let root := Elem (str "programs") None [record_show_a; record_untitled] in
  length (records_of root) = 2%nat
  /\ List.filter is_filler (records_of root) = []
  /\ fst (parse_xml_content (WellFormed root) (world_with calm [])) =
     Raise (Exc AttributeError).
Proof. vm_compute. repeat split. Qed.

(** C8.  A feed with a record that has no title element makes
    [parse_xml_content] raise [AttributeError], so no rows are returned;
    a feed in which every record has a title is parsed to the rows of its
    kept records. *)
Theorem parse_fails_exactly_on_missing_title (root : Element) (w : world) :
  fst (parse_xml_content (WellFormed root) w) =
  if forallb has_title (records_of root)
  then Ok (List.map row_of (kept (records_of root)))
  else Raise (Exc AttributeError).
Proof. apply parse_xml_content_outcome. Qed.

(** C2 (as amended).  Every row that [parse_xml_content] returns comes
    from a record with a title element and has eight fields; the title
    field is the text of the title element; the field of an optional tag
    is the empty string when the record has no such element, and the text
    of the element when it has one.  The text of an element without text
    is [None], not the empty string. *)
Theorem emitted_fields (root : Element) (w w' : world) (rows : list row) :
  parse_xml_content (WellFormed root) w = (Ok rows, w') ->
  Forall (fun r : row =>
    exists record title_el,
      In record (records_of root)
      /\ find record (str "TITEL") = Some title_el
      /\ length r = 8%nat
      /\ r !! 2%nat = Some (text title_el)
      /\ forall i name, In (i, name) optional_columns ->
           r !! i = Some (match find record (str name) with
                          | Some el => text el
                          | None => Some []
                          end)) rows.
Proof.
  intros H.
  pose proof (parse_xml_content_outcome root w) as Ho.
  rewrite H in Ho. simpl in Ho.
  destruct (forallb has_title (records_of root)) eqn:Ht; [| discriminate].
  injection Ho as ->.
  apply List.Forall_forall. intros r Hr.
  apply List.in_map_iff in Hr as [record [<- Hk]].
  apply kept_incl in Hk as [Hin _].
  rewrite List.forallb_forall in Ht. specialize (Ht _ Hin).
  unfold has_title in Ht. apply bool_decide_eq_true in Ht as [t Ht].
  exists record, t. repeat split; try assumption.
  - unfold row_of, title_text. rewrite Ht. reflexivity.
  - intros i name Hi. unfold optional_columns in Hi. simpl in Hi.
    repeat (destruct Hi as [Hi | Hi]; [injection Hi as <- <-; reflexivity |]).
    contradiction.
Qed.

Lemma emitted_fields_witness :
  Forall (fun r : row =>
    exists record title_el,
      In record (records_of (Elem (str "programs") None [record_sparse]))
      /\ find record (str "TITEL") = Some title_el
      /\ length r = 8%nat
      /\ r !! 2%nat = Some (text title_el)
      /\ forall i name, In (i, name) optional_columns ->
           r !! i = Some (match find record (str name) with
                          | Some el => text el
                          | None => Some []
                          end))
    [row_of record_sparse].
Proof.
  apply (emitted_fields (Elem (str "programs") None [record_sparse])
           (world_with calm [])
           (snd (parse_xml_content (feed [record_sparse]) (world_with calm [])))).
  vm_compute. reflexivity.
Defined.

(** C2, the claim as stated, fails: the record [record_sparse] has an
    [EPG] element without text, and its row has [None] in the EPG field,
    which is not a string.  (The missing [START] does give the empty
    string.) *)
Lemma empty_element_gives_None :
  find record_sparse (str "EPG") = Some (Elem (str "EPG") None [])
  /\ fst (parse_xml_content (feed [record_sparse]) (world_with calm [])) =
     Ok [[Some (str "20240102"); Some []; Some (str "Show B"); None;
          Some (str "EP2"); Some []; Some (str "G"); Some (str "News")]]
  /\ all_strings [Some (str "20240102"); Some []; Some (str "Show B"); None;
                  Some (str "EP2"); Some []; Some (str "G"); Some (str "News")]
     = false.
Proof. vm_compute. repeat split. Qed.

(* ===================================================================== *)
(** * Frames                                                              *)
(* ===================================================================== *)

Section Frame.
Context {X : Type} (f : world -> X).

Lemma preserves_ret {A} (a : A) : preserves f (ret a).
Proof. intros w. reflexivity. Qed.

Lemma preserves_raise {A} e : preserves f (@raise A e).
Proof. intros w. reflexivity. Qed.

Lemma preserves_gets {A} (g : world -> A) : preserves f (gets g).
Proof. intros w. reflexivity. Qed.

Lemma preserves_bind {A B} (m : M A) (k : A -> M B) :
  preserves f m -> (forall a, preserves f (k a)) -> preserves f (bind m k).
Proof.
  intros Hm Hk w. unfold bind. specialize (Hm w).
  destruct (m w) as [[a | e] w1]; simpl in *.
  - now rewrite Hk.
  - assumption.
Qed.

Lemma preserves_modify (g : world -> world) :
  (forall w, f (g w) = f w) -> preserves f (modify g).
Proof. intros H w. apply H. Qed.

Lemma preserves_external ev :
  (forall w, f (next_tick (add_event ev w)) = f w) ->
  preserves f (external ev).
Proof.
  intros H w. unfold external.
  destruct (fault (env w) (tick w)); apply H.
Qed.

Lemma preserves_attempts {A} (r : retrying) (fn : M A) :
  preserves f fn -> (forall d w, f (sleep d w) = f w) ->
  forall left st w, f (snd (fst (attempts r fn left st w))) = f w.
Proof.
  intros Hfn Hsleep. induction left as [| left IH]; intros st w; simpl;
    specialize (Hfn w); destruct (fn w) as [[a | e] w1]; simpl in *;
    try assumption;
    destruct (isinstance e (retry_if_exception_type r)); simpl;
    try assumption;
    destruct (stop_after_attempt r <=? attempt_number st)%nat; simpl;
    try assumption.
  now rewrite IH, Hsleep.
Qed.

Lemma preserves_retry {A} (r : retrying) (fn : M A) :
  preserves f fn -> (forall d w, f (sleep d w) = f w) ->
  preserves f (retry r fn).
Proof.
  intros Hfn Hsleep w. unfold retry, retry_call.
  now apply preserves_attempts.
Qed.
End Frame.

(* ===================================================================== *)
(** * The retry loop                                                      *)
(* ===================================================================== *)

(** One turn of the loop. *)
Lemma attempts_unfold {A} (r : retrying) (fn : M A) left st w :
  attempts r fn left st w =
  match fn w with
  | (Ok a, w1) => (Ok a, w1, st)
  | (Raise e, w1) =>
      if negb (isinstance e (retry_if_exception_type r)) then (Raise e, w1, st)
      else if (stop_after_attempt r <=? attempt_number st)%nat then
        (Raise (if reraise r then e else RetryErr e), w1, st)
      else
        match left with
        | O => (Raise (if reraise r then e else RetryErr e), w1, st)
        | S left' =>
            attempts r fn left'
              {| attempt_number := S (attempt_number st);
                 idle_for := (idle_for st + wait_fixed r)%nat |}
              (sleep (wait_fixed r) w1)
        end
  end.
Proof. destruct left; reflexivity. Qed.

(** A call whose first attempt returns makes no other attempt. *)
Lemma retry_call_ok {A} (r : retrying) (fn : M A) w a w1 :
  fn w = (Ok a, w1) -> retry_call r fn w = (Ok a, w1, one_attempt).
Proof.
  intros H. unfold retry_call.
  destruct (stop_after_attempt r - 1)%nat; simpl; now rewrite H.
Qed.

Lemma retry_ok {A} (r : retrying) (fn : M A) w a w1 :
  fn w = (Ok a, w1) -> retry r fn w = (Ok a, w1).
Proof. intros H. unfold retry. now rewrite (retry_call_ok r fn w a w1 H). Qed.

(** A first attempt that raises: either the exception is not of the
    retried class and ends the call, or the loop goes on. *)
Lemma attempts_raise {A} (r : retrying) (fn : M A) left st w e w1 :
  fn w = (Raise e, w1) ->
  isinstance e (retry_if_exception_type r) = false ->
  attempts r fn left st w = (Raise e, w1, st).
Proof. intros H Hi. destruct left; simpl; now rewrite H, Hi. Qed.

(** [n] failed attempts that use up what [stop] allows end the loop with
    [RetryError] (or with the last exception, with [reraise]). *)
Lemma attempts_exhausted {A} (r : retrying) (fn : M A) :
  forall n left st w e w',
  failed_attempts r fn n w = Some (e, w') ->
  stop_after_attempt r = (attempt_number st + n - 1)%nat ->
  (n - 1 <= left)%nat ->
  attempts r fn left st w =
  (Raise (if reraise r then e else RetryErr e), w',
   {| attempt_number := (attempt_number st + n - 1)%nat;
      idle_for := (idle_for st + (n - 1) * wait_fixed r)%nat |}).
Proof.
  induction n as [| n IH]; intros left st w e w' Hf Hstop Hleft.
  - discriminate.
  - cbn [failed_attempts] in Hf.
    destruct (fn w) as [[a | e1] w1] eqn:Hfn; [discriminate |].
    destruct (isinstance e1 (retry_if_exception_type r)) eqn:Hi;
      [| discriminate].
    destruct n as [| n].
    + injection Hf as -> ->.
      assert (Hle : (stop_after_attempt r <=? attempt_number st)%nat = true)
        by (apply Nat.leb_le; lia).
      destruct st as [an idle]. simpl in *.
      destruct left; simpl; rewrite Hfn, Hi; simpl; rewrite Hle;
        (do 2 f_equal; lia).
    + assert (Hle : (stop_after_attempt r <=? attempt_number st)%nat = false)
        by (apply Nat.leb_gt; lia).
      destruct left as [| left]; [lia |].
      cbn [attempts]. rewrite Hfn, Hi. simpl negb. cbv iota. rewrite Hle.
      rewrite (IH left _ _ e w' Hf); simpl; try lia.
      do 2 f_equal; lia.
Qed.

(** The sleeps of [n] failed attempts: the wait, [n - 1] times. *)
Lemma failed_attempts_sleeps {A} (r : retrying) (fn : M A) :
  preserves sleeps fn ->
  forall n w e w',
  failed_attempts r fn n w = Some (e, w') ->
  sleeps w' = sleeps w ++ repeat (wait_fixed r) (n - 1).
Proof.
  intros Hp. induction n as [| n IH]; intros w e w' Hf; [discriminate |].
  cbn [failed_attempts] in Hf. specialize (Hp w).
  destruct (fn w) as [[a | e1] w1]; [discriminate |]. simpl in Hp.
  destruct (isinstance e1 (retry_if_exception_type r)); [| discriminate].
  destruct n as [| n].
  - injection Hf as He Hw. subst. cbn [Nat.sub repeat].
    now rewrite app_nil_r.
  - apply IH in Hf. rewrite Hf. unfold sleeps at 1, sleep, add_event.
    cbn [trace]. rewrite List.flat_map_app. cbn [List.flat_map app].
    fold (sleeps w1). rewrite Hp, <- app_assoc. f_equal.
    cbn [Nat.sub]. rewrite Nat.sub_0_r. reflexivity.
Qed.

(** Exhaustion of the program's policy: five attempts, four waits of 120
    seconds, then [RetryError] with the last exception inside. *)
Lemma retry_5_120_exhausted {A} (c : exc_class) (fn : M A) w e w' :
  preserves sleeps fn ->
  failed_attempts (retry_5_120 c) fn 5 w = Some (e, w') ->
  retry_call (retry_5_120 c) fn w = (Raise (RetryErr e), w', five_attempts)
  /\ retry (retry_5_120 c) fn w = (Raise (RetryErr e), w')
  /\ sleeps w' = sleeps w ++ [120; 120; 120; 120]%nat.
Proof.
  intros Hp Hf.
  assert (H : retry_call (retry_5_120 c) fn w =
              (Raise (RetryErr e), w', five_attempts)).
  { unfold retry_call.
    rewrite (attempts_exhausted _ fn 5 _ _ w e w' Hf); simpl; try lia.
    reflexivity. }
  split; [exact H |]. split.
  - unfold retry. now rewrite H.
  - now rewrite (failed_attempts_sleeps _ fn Hp 5 w e w' Hf).
Qed.

(** The functions under the decorator do not sleep themselves. *)
Lemma sleeps_external ev w :
  reads_only ev = false \/ (forall s, ev <> EvSleep s) ->
  sleeps (next_tick (add_event ev w)) = sleeps w.
Proof.
  intros H. unfold sleeps. simpl. rewrite List.flat_map_app. simpl.
  destruct ev; try now rewrite !app_nil_r.
  destruct H as [H | H]; [discriminate | now destruct (H seconds)].
Qed.

Lemma fetch_url_body_sleeps url : preserves sleeps (fetch_url_body url).
Proof.
  unfold fetch_url_body, requests_get.
  repeat (apply preserves_bind; [| intros ?]);
    try apply preserves_ret; try apply preserves_gets.
  - apply preserves_external. intros w. apply sleeps_external.
    right. discriminate.
  - now apply preserves_modify.
Qed.

Lemma update_google_sheet_body_sleeps data :
  preserves sleeps (update_google_sheet_body data).
Proof.
  unfold update_google_sheet_body, batch_clear, batch_update.
  repeat (apply preserves_bind; [| intros ?]);
    try apply preserves_modify; try reflexivity;
    try (apply preserves_external; intros w; apply sleeps_external;
         left; reflexivity).
  destruct (forallb fits _).
  - now apply preserves_modify.
  - intros w. reflexivity.
Qed.

Lemma read_bytes_preserves {X} (f : world -> X) p : preserves f (read_bytes p).
Proof. intros w. unfold read_bytes. now destruct (fs w !! p). Qed.

Lemma send_email_body_sleeps p : preserves sleeps (send_email_body p).
Proof.
  unfold send_email_body.
  repeat (apply preserves_bind; [| intros ?]);
    try apply preserves_gets; try apply read_bytes_preserves;
    try (apply preserves_modify; reflexivity);
    try (apply preserves_external; intros w; apply sleeps_external;
         left; reflexivity).
Qed.

(** C3 (as amended).  When five attempts in a row of a decorated
    function (URL fetch, sheet update, email send) raise exceptions of
    the class its decorator retries, the call makes exactly these five
    attempts, sleeps 120 seconds after each of the first four, and then
    raises tenacity's [RetryError], which holds the exception of the
    fifth attempt; there is no sixth attempt. *)
Theorem retries_exhausted_raise_RetryError :
  (forall url w e w',
     failed_attempts (retry_5_120 RequestException) (fetch_url_body url) 5 w
       = Some (e, w') ->
     retry_call (retry_5_120 RequestException) (fetch_url_body url) w
       = (Raise (RetryErr e), w', five_attempts)
     /\ fetch_url url w = (Raise (RetryErr e), w')
     /\ sleeps w' = sleeps w ++ [120; 120; 120; 120]%nat)
  /\ (forall data w e w',
     failed_attempts (retry_5_120 APIError) (update_google_sheet_body data) 5 w
       = Some (e, w') ->
     retry_call (retry_5_120 APIError) (update_google_sheet_body data) w
       = (Raise (RetryErr e), w', five_attempts)
     /\ update_google_sheet data w = (Raise (RetryErr e), w')
     /\ sleeps w' = sleeps w ++ [120; 120; 120; 120]%nat)
  /\ (forall file_path w e w',
     failed_attempts (retry_5_120 SMTPException) (send_email_body file_path) 5 w
       = Some (e, w') ->
     retry_call (retry_5_120 SMTPException) (send_email_body file_path) w
       = (Raise (RetryErr e), w', five_attempts)
     /\ send_email_with_attachment file_path w = (Raise (RetryErr e), w')
     /\ sleeps w' = sleeps w ++ [120; 120; 120; 120]%nat).
Proof.
  split; [| split]; intros x w e w' Hf.
  - apply retry_5_120_exhausted; [apply fetch_url_body_sleeps | exact Hf].
  - apply retry_5_120_exhausted;
      [apply update_google_sheet_body_sleeps | exact Hf].
  - apply retry_5_120_exhausted; [apply send_email_body_sleeps | exact Hf].
Qed.

Lemma retries_exhausted_raise_RetryError_witness :
  let wf := world_with (failing (Exc RequestsConnectionError)) [] in
  let wu := world_with (failing (Exc APIError)) [] in
  let ws := world_with (failing (Exc SMTPServerDisconnected)) [] in
  let data := [row_of record_show_a] in
  (failed_attempts (retry_5_120 RequestException) (fetch_url_body url_a) 5 wf
     = Some (Exc RequestsConnectionError, snd (fetch_url url_a wf))
   /\ fetch_url url_a wf
      = (Raise (RetryErr (Exc RequestsConnectionError)),
         snd (fetch_url url_a wf)))
  /\ (failed_attempts (retry_5_120 APIError) (update_google_sheet_body data)
        5 wu
      = Some (Exc APIError, snd (update_google_sheet data wu))
      /\ update_google_sheet data wu
         = (Raise (RetryErr (Exc APIError)), snd (update_google_sheet data wu)))
  /\ (failed_attempts (retry_5_120 SMTPException)
        (send_email_body snapshot_path) 5 ws
      = Some (Exc SMTPServerDisconnected,
              snd (send_email_with_attachment snapshot_path ws))
      /\ send_email_with_attachment snapshot_path ws
         = (Raise (RetryErr (Exc SMTPServerDisconnected)),
            snd (send_email_with_attachment snapshot_path ws))).
Proof.
  intros wf wu ws data.
  assert (Hf : failed_attempts (retry_5_120 RequestException)
                 (fetch_url_body url_a) 5 wf
               = Some (Exc RequestsConnectionError, snd (fetch_url url_a wf)))
    by (vm_compute; reflexivity).
  assert (Hu : failed_attempts (retry_5_120 APIError)
                 (update_google_sheet_body data) 5 wu
               = Some (Exc APIError, snd (update_google_sheet data wu)))
    by (vm_compute; reflexivity).
  assert (Hs : failed_attempts (retry_5_120 SMTPException)
                 (send_email_body snapshot_path) 5 ws
               = Some (Exc SMTPServerDisconnected,
                       snd (send_email_with_attachment snapshot_path ws)))
    by (vm_compute; reflexivity).
  destruct retries_exhausted_raise_RetryError as [Tf [Tu Ts]].
  exact (conj (conj Hf (proj1 (proj2 (Tf _ _ _ _ Hf))))
          (conj (conj Hu (proj1 (proj2 (Tu _ _ _ _ Hu))))
                (conj Hs (proj1 (proj2 (Ts _ _ _ _ Hs)))))).
Defined.

(** C3, the claim as stated, fails: five attempts of the fetch that all
    raise [requests]' [ConnectionError] end with an exception that is not
    that exception, and not of its class: it is a [RetryError]. *)
Lemma exhausted_fetch_raises_another_exception :
  let w := world_with (failing (Exc RequestsConnectionError)) [] in
  fst <$> failed_attempts (retry_5_120 RequestException) (fetch_url_body url_a)
            5 w = Some (Exc RequestsConnectionError)
  /\ snd (retry_call (retry_5_120 RequestException) (fetch_url_body url_a) w)
     = five_attempts
  /\ fst (fetch_url url_a w) = Raise (RetryErr (Exc RequestsConnectionError))
  /\ fst (fetch_url url_a w) <> Raise (Exc RequestsConnectionError)
  /\ isinstance (RetryErr (Exc RequestsConnectionError)) RequestException
     = false.
Proof. vm_compute. repeat split. discriminate. Qed.

(** What one attempt of the fetch does. *)
Lemma fetch_url_body_run url w :
  fetch_url_body url w =
  match fault (env w) (tick w) with
  | Some e => (Raise e, next_tick (add_event (EvHttpGet url) w))
  | None =>
      (Ok (web (env w) url),
       add_log (INFO, str "Processing URL: " ++ url)
               (next_tick (add_event (EvHttpGet url) w)))
  end.
Proof.
  unfold fetch_url_body, requests_get, bind, external.
  destruct (fault (env w) (tick w)); reflexivity.
Qed.

(** C7 (as amended).  When an attempt of the fetch raises, the decorator
    looks only at the class of the exception: one that is not an instance
    of [requests.exceptions.RequestException] ends the call at once, as
    the exception of the call, after one attempt and no sleep; one that
    is an instance makes the call sleep 120 seconds and go on to a second
    attempt.  The URL-syntax errors of [requests] ([MissingSchema],
    [InvalidSchema], [InvalidURL]) are such instances. *)
Theorem fetch_retries_exactly_request_exceptions
    (url : pystr) (w w1 : world) (e : exn) :
  fetch_url_body url w = (Raise e, w1) ->
  retry_call (retry_5_120 RequestException) (fetch_url_body url) w =
    (if isinstance e RequestException
     then attempts (retry_5_120 RequestException) (fetch_url_body url) 3
            {| attempt_number := 2; idle_for := 120 |} (sleep 120 w1)
     else (Raise e, w1, one_attempt))
  /\ Forall (fun c => issubclass c RequestException = true)
            [MissingSchema; InvalidSchema; InvalidURL;
             RequestsConnectionError; RequestsTimeout; HTTPError]
  /\ Forall (fun c => issubclass c RequestException = false)
            [ValueError; TypeError; AttributeError; OSError; ParseError].
Proof.
  intros H. split; [| split; repeat constructor].
  unfold retry_call. rewrite attempts_unfold, H.
  cbn [retry_5_120 retry_if_exception_type stop_after_attempt].
  destruct (isinstance e RequestException); reflexivity.
Qed.

Lemma fetch_retries_exactly_request_exceptions_witness :
  fetch_url_body url_a (world_with (failing (Exc TypeError)) []) =
    (Raise (Exc TypeError),
     next_tick (add_event (EvHttpGet url_a)
                  (world_with (failing (Exc TypeError)) [])))
  /\ retry_call (retry_5_120 RequestException) (fetch_url_body url_a)
       (world_with (failing (Exc TypeError)) []) =
     (Raise (Exc TypeError),
      next_tick (add_event (EvHttpGet url_a)
                   (world_with (failing (Exc TypeError)) [])),
      one_attempt).
Proof.
  assert (H : fetch_url_body url_a (world_with (failing (Exc TypeError)) []) =
              (Raise (Exc TypeError),
               next_tick (add_event (EvHttpGet url_a)
                            (world_with (failing (Exc TypeError)) []))))
    by reflexivity.
  split; [exact H |].
  exact (proj1 (fetch_retries_exactly_request_exceptions _ _ _ _ H)).
Defined.

(** C7, the claim as stated, fails: a URL without a scheme makes
    [requests.get] raise [MissingSchema], a failure that has nothing to do
    with the network; the fetch is attempted five times all the same,
    with four sleeps of 120 seconds. *)
Lemma bad_url_syntax_is_retried :
  let w := world_with (failing (Exc MissingSchema)) [] in
  fst (fetch_url_body url_bad w) = Raise (Exc MissingSchema)
  /\ snd (retry_call (retry_5_120 RequestException) (fetch_url_body url_bad) w)
     = five_attempts
  /\ trace (snd (fetch_url url_bad w)) =
     [EvHttpGet url_bad; EvSleep 120; EvHttpGet url_bad; EvSleep 120;
      EvHttpGet url_bad; EvSleep 120; EvHttpGet url_bad; EvSleep 120;
      EvHttpGet url_bad]
  /\ fst (fetch_url url_bad w) <> Raise (Exc MissingSchema).
Proof. vm_compute. repeat split. discriminate. Qed.

(* ===================================================================== *)
(** * The cells of the sheet                                              *)
(* ===================================================================== *)

Lemma write_cell_lookup (rc : nat * nat) (v : option pystr)
    (cells : gmap (nat * nat) pystr) (k : nat * nat) :
  write_cell rc v cells !! k =
  if decide (rc = k) then written v (cells !! k) else cells !! k.
Proof.
  unfold write_cell, written.
  destruct v as [[| c s] |].
  - apply lookup_delete.
  - apply lookup_insert.
  - now destruct (decide (rc = k)).
Qed.

Lemma write_row_lookup (vals : row) :
  forall (c : nat) (cells : gmap (nat * nat) pystr) (r r' c' : nat),
  write_row r c vals cells !! (r', c') =
  if bool_decide (r' = r /\ c <= c')%nat then
    match vals !! (c' - c)%nat with
    | Some v => written v (cells !! (r', c'))
    | None => cells !! (r', c')
    end
  else cells !! (r', c').
Proof.
  induction vals as [| v vals IH]; intros c cells r r' c'.
  - simpl. now destruct (bool_decide _).
  - cbn [write_row]. rewrite IH, write_cell_lookup.
    destruct (decide ((r, c) = (r', c'))) as [Heq | Hne].
    + injection Heq as <- <-.
      rewrite bool_decide_eq_false_2 by lia.
      rewrite bool_decide_eq_true_2 by lia.
      now rewrite Nat.sub_diag.
    + destruct (decide (r' = r /\ S c <= c')%nat) as [[-> Hc] | Hn].
      * rewrite !bool_decide_eq_true_2 by lia.
        replace (c' - c)%nat with (S (c' - S c)) by lia. reflexivity.
      * rewrite (bool_decide_eq_false_2 _ Hn).
        destruct (decide (r' = r /\ c <= c')%nat) as [[-> Hc] | Hn'].
        -- assert (c' = c) by lia. subst. now destruct Hne.
        -- now rewrite (bool_decide_eq_false_2 _ Hn').
Qed.

Lemma enumerate_rows_acc (data : list row) : forall i batch,
  enumerate_rows data i batch = batch ++ enumerate_rows data i [].
Proof.
  induction data as [| vals data IH]; intros i batch; simpl.
  - now rewrite app_nil_r.
  - rewrite IH, (IH _ [_]). now rewrite <- app_assoc.
Qed.

Lemma enumerate_rows_cons (vals : row) (data : list row) (i : nat) :
  enumerate_rows (vals :: data) i [] =
  {| vr_range := Ai_Hi i; vr_values := [vals] |} :: enumerate_rows data (S i) [].
Proof. simpl. now rewrite enumerate_rows_acc. Qed.

(** The cells after the batch that [update_google_sheet] builds. *)
Lemma write_batch_lookup (data : list row) :
  forall (i : nat) (cells : gmap (nat * nat) pystr) (rc : nat * nat),
  fold_left write_value_range (enumerate_rows data i []) cells !! rc =
  cell_after data i cells rc.
Proof.
  induction data as [| vals data IH]; intros i cells [r' c'].
  - unfold cell_after. simpl. now destruct (bool_decide _).
  - rewrite enumerate_rows_cons. cbn [fold_left]. rewrite IH.
    unfold write_value_range at 1. cbn [vr_range vr_values first_row write_rows].
    unfold cell_after. cbn [fst snd]. rewrite write_row_lookup.
    destruct (decide (S i <= r' /\ 1 <= c')%nat) as [[Hr Hc] | Hn].
    + rewrite (bool_decide_eq_true_2 (S i <= r' /\ 1 <= c')%nat) by lia.
      rewrite (bool_decide_eq_false_2 (r' = i /\ 1 <= c')%nat) by lia.
      rewrite (bool_decide_eq_true_2 (i <= r' /\ 1 <= c')%nat) by lia.
      replace (r' - i)%nat with (S (r' - S i)) by lia. reflexivity.
    + rewrite (bool_decide_eq_false_2 _ Hn).
      destruct (decide (r' = i /\ 1 <= c')%nat) as [[-> Hc] | Hn'].
      * rewrite !bool_decide_eq_true_2 by lia.
        rewrite Nat.sub_diag. reflexivity.
      * rewrite (bool_decide_eq_false_2 _ Hn').
        rewrite (bool_decide_eq_false_2 (i <= r' /\ 1 <= c')%nat) by lia.
        reflexivity.
Qed.

Lemma clear_A2_H_lookup (cells : gmap (nat * nat) pystr) (rc : nat * nat) :
  clear_ranges [A2_H] cells !! rc =
  if in_range A2_H rc then None else cells !! rc.
Proof.
  unfold clear_ranges. destruct (in_range A2_H rc) eqn:Hr.
  - apply map_lookup_filter_None. right. intros x _ HP.
    cbn [existsb fst] in HP. rewrite Hr in HP. discriminate.
  - destruct (cells !! rc) as [x |] eqn:Hx.
    + apply map_lookup_filter_Some. split; [assumption |].
      cbn [existsb fst]. now rewrite Hr.
    + apply map_lookup_filter_None. now left.
Qed.

Lemma fits_enumerate_rows (data : list row) : forall i : nat,
  forallb fits (enumerate_rows data i []) =
  forallb (fun vals : row => (length vals <=? 8)%nat) data.
Proof.
  induction data as [| vals data IH]; intros i; [reflexivity |].
  rewrite enumerate_rows_cons. cbn [forallb]. rewrite IH.
  unfold fits. simpl. now rewrite !andb_true_r.
Qed.

(** Clearing A2:H and writing rows of at most eight fields from row 2
    leaves in A2:H what the rows say and outside what was there. *)
Lemma synced_lookup (data : list row) (cells : gmap (nat * nat) pystr)
    (rc : nat * nat) :
  forallb (fun vals : row => (length vals <=? 8)%nat) data = true ->
  cell_after data 2 (clear_ranges [A2_H] cells) rc =
  if in_range A2_H rc then synced_cell data rc else cells !! rc.
Proof.
  intros Hfit. destruct rc as [r c].
  unfold cell_after, synced_cell. rewrite clear_A2_H_lookup.
  cbn [fst snd]. unfold in_range. cbn [fst snd].
  destruct (decide (2 <= r /\ 1 <= c)%nat) as [[Hr Hc] | Hn].
  - rewrite bool_decide_eq_true_2 by lia.
    rewrite (proj2 (Nat.leb_le 2 r) Hr), (proj2 (Nat.leb_le 1 c) Hc).
    cbn [andb].
    destruct (c <=? 8)%nat eqn:Hc8.
    + destruct (data !! (r - 2)%nat ≫= _) as [[[| x s] |] |]; reflexivity.
    + apply Nat.leb_gt in Hc8.
      destruct (data !! (r - 2)%nat) as [vals |] eqn:Hd; [| reflexivity].
      simpl. rewrite forallb_forall in Hfit.
      assert (Hin : In vals data).
      { apply list_elem_of_In, list_elem_of_lookup. eauto. }
      apply Hfit, Nat.leb_le in Hin.
      rewrite (proj2 (lookup_ge_None vals (c - 1)%nat)) by lia.
      reflexivity.
  - rewrite (bool_decide_eq_false_2 _ Hn).
    destruct (2 <=? r)%nat eqn:H2; [| reflexivity].
    destruct (1 <=? c)%nat eqn:H1; [| reflexivity].
    apply Nat.leb_le in H2, H1. lia.
Qed.

(** An attempt of the update that returns has written all rows. *)
Lemma update_body_ok (data : list row) (w w1 : world) :
  update_google_sheet_body data w = (Ok tt, w1) ->
  forall rc, sheet w1 !! rc =
             if in_range A2_H rc then synced_cell data rc else sheet w !! rc.
Proof.
  unfold update_google_sheet_body, batch_clear, batch_update, bind, external,
    modify, logger_info.
  destruct (fault (env w) (tick w)); [discriminate |]. wsimpl.
  destruct (fault (env w) (S (tick w))); [discriminate |].
  rewrite fits_enumerate_rows.
  destruct (forallb _ data) eqn:Hfit; [| discriminate].
  intros H rc. injection H as <-. wsimpl.
  rewrite write_batch_lookup. now apply synced_lookup.
Qed.

(** An attempt of the update that raises has at most cleared A2:H. *)
Lemma update_body_raise (data : list row) (w : world) (e : exn) (w1 : world) :
  update_google_sheet_body data w = (Raise e, w1) ->
  forall rc, in_range A2_H rc = false -> sheet w1 !! rc = sheet w !! rc.
Proof.
  intros H rc Hrc. revert H.
  unfold update_google_sheet_body, batch_clear, batch_update, bind, external,
    modify, logger_info.
  destruct (fault (env w) (tick w)).
  { intros H. now injection H as _ <-. }
  wsimpl. destruct (fault (env w) (S (tick w))).
  { intros H. injection H as _ <-. wsimpl.
    now rewrite clear_A2_H_lookup, Hrc. }
  destruct (forallb fits _); [discriminate |].
  intros H. injection H as _ <-. wsimpl.
  now rewrite clear_A2_H_lookup, Hrc.
Qed.

(** The same for the whole call, through the attempts that failed. *)
Lemma attempts_update_cells (data : list row) (left : nat) :
  forall st w w1 st',
  attempts (retry_5_120 APIError) (update_google_sheet_body data) left st w =
    (Ok tt, w1, st') ->
  forall rc, sheet w1 !! rc =
             if in_range A2_H rc then synced_cell data rc else sheet w !! rc.
Proof.
  induction left as [| left IH]; intros st w w1 st'; rewrite attempts_unfold;
    destruct (update_google_sheet_body data w) as [[[] | e] w0] eqn:Hb.
  - intros H. injection H as <- _. now apply update_body_ok.
  - destruct (negb _); [discriminate |].
    destruct (_ <=? _)%nat; discriminate.
  - intros H. injection H as <- _. now apply update_body_ok.
  - destruct (negb _); [discriminate |].
    destruct (_ <=? _)%nat; [discriminate |].
    intros H rc. rewrite (IH _ _ _ _ H rc).
    destruct (in_range A2_H rc) eqn:Hrc; [reflexivity |].
    change (sheet (sleep _ w0)) with (sheet w0).
    now apply (update_body_raise data w e w0 Hb).
Qed.

Lemma update_google_sheet_cells (data : list row) (w w1 : world) :
  update_google_sheet data w = (Ok tt, w1) ->
  forall rc, sheet w1 !! rc =
             if in_range A2_H rc then synced_cell data rc else sheet w !! rc.
Proof.
  unfold update_google_sheet, retry, retry_call. intros H.
  destruct (attempts _ _ _ _ w) as [[r w'] st'] eqn:Ha.
  simpl in H. injection H as -> ->.
  now apply (attempts_update_cells _ _ _ _ _ _ Ha).
Qed.

(** C9.  Synchronising the sheet with a dataset twice in a row leaves the
    sheet as synchronising it once does: after a call that returns, every
    cell of A2:H holds what the dataset says for it, whatever the sheet
    held before, and the cells outside A2:H are as they were. *)
Theorem sheet_sync_idempotent (data : list row) (w w1 w2 : world) :
  update_google_sheet data w = (Ok tt, w1) ->
  update_google_sheet data w1 = (Ok tt, w2) ->
  sheet w2 = sheet w1
  /\ (forall rc, in_range A2_H rc = true ->
                 sheet w1 !! rc = synced_cell data rc)
  /\ read_range A2_H (sheet w2) = read_range A2_H (sheet w1).
Proof.
  intros H1 H2.
  pose proof (update_google_sheet_cells _ _ _ H1) as C1.
  pose proof (update_google_sheet_cells _ _ _ H2) as C2.
  assert (E : sheet w2 = sheet w1).
  { apply map_eq. intros rc. rewrite C2, (C1 rc).
    now destruct (in_range A2_H rc). }
  split; [exact E |]. split.
  - intros rc Hrc. now rewrite C1, Hrc.
  - now rewrite E.
Qed.

Lemma sheet_sync_idempotent_witness :
  let data := [row_of record_show_a; row_of record_sparse] in
  let w := world_with calm [] in
  let w1 := snd (update_google_sheet data w) in
  let w2 := snd (update_google_sheet data w1) in
  update_google_sheet data w = (Ok tt, w1)
  /\ update_google_sheet data w1 = (Ok tt, w2)
  /\ sheet w2 = sheet w1.
Proof.
  intros data w w1 w2.
  assert (H1 : update_google_sheet data w = (Ok tt, w1))
    by (apply run_ok; vm_compute; reflexivity).
  assert (H2 : update_google_sheet data w1 = (Ok tt, w2))
    by (apply run_ok; vm_compute; reflexivity).
  split; [exact H1 |]. split; [exact H2 |].
  exact (proj1 (sheet_sync_idempotent data w w1 w2 H1 H2)).
Defined.

(* ===================================================================== *)
(** * The codec                                                           *)
(* ===================================================================== *)

Lemma utf16_le_encode_app (a b : pystr) :
  utf16_le_encode (a ++ b) =
  match utf16_le_encode a, utf16_le_encode b with
  | Some x, Some y => Some (x ++ y)
  | _, _ => None
  end.
Proof.
  induction a as [| c a IH]; simpl.
  - now destruct (utf16_le_encode b).
  - rewrite IH. destruct (code_units c) as [us |]; [| reflexivity].
    destruct (utf16_le_encode a) as [x |]; [| reflexivity].
    destruct (utf16_le_encode b) as [y |]; [| reflexivity].
    now rewrite app_assoc.
Qed.

Lemma utf16_le_encode_scalars (s : pystr) :
  forallb is_scalar s = true -> exists bs, utf16_le_encode s = Some bs.
Proof.
  induction s as [| c s IH]; intros H.
  - now exists [].
  - cbn [forallb] in H. apply andb_prop in H as [Hc Hs].
    destruct (IH Hs) as [bs Hbs]. cbn [utf16_le_encode].
    unfold code_units. rewrite Hc, Hbs. cbn [negb].
    destruct (c <? 65536); eexists; reflexivity.
Qed.

(** The two bytes of a code unit give the unit back. *)
Lemma unit_bytes_value (u : Z) :
  0 <= u -> Z.land u 255 + Z.shiftr u 8 * 256 = u.
Proof.
  intros Hu. change 255 with (Z.ones 8).
  rewrite Z.land_ones, Z.shiftr_div_pow2 by lia.
  change (2 ^ 8) with 256. pose proof (Z.div_mod u 256). lia.
Qed.

Lemma units_of_bytes_unit (u : Z) (bs : list Z) :
  0 <= u ->
  units_of_bytes false (unit_bytes_le u ++ bs) =
  match units_of_bytes false bs with
  | Some us => Some (u :: us)
  | None => None
  end.
Proof.
  intros Hu. unfold unit_bytes_le. cbn [app units_of_bytes].
  destruct (units_of_bytes false bs); [| reflexivity].
  now rewrite unit_bytes_value.
Qed.

Lemma code_points_bmp (u : Z) (us : list Z) :
  is_high_surrogate u = false -> is_low_surrogate u = false ->
  code_points (u :: us) =
  match code_points us with
  | Some s => Some (u :: s)
  | None => None
  end.
Proof. intros Hh Hl. cbn [code_points]. now rewrite Hh, Hl. Qed.

Lemma code_points_pair (h l : Z) (us : list Z) :
  is_high_surrogate h = true -> is_low_surrogate l = true ->
  code_points (h :: l :: us) =
  match code_points us with
  | Some s => Some (65536 + (h - 55296) * 1024 + (l - 56320) :: s)
  | None => None
  end.
Proof. intros Hh Hl. cbn [code_points]. now rewrite Hh, Hl. Qed.

Lemma is_scalar_bounds (c : Z) :
  is_scalar c = true ->
  0 <= c <= 1114111 /\ (c < 55296 \/ 57343 < c).
Proof.
  unfold is_scalar, is_high_surrogate, is_low_surrogate. intros H.
  repeat (apply andb_prop in H as [H ?]).
  repeat match goal with
         | H : negb _ = true |- _ => apply negb_true_iff in H
         | H : (_ && _) = false |- _ => apply andb_false_iff in H
         | H : (_ <=? _) = true |- _ => apply Z.leb_le in H
         end.
  rewrite !Z.leb_gt in *. lia.
Qed.

(** Decoding the code points that were encoded gives them back. *)
Lemma decode_encode (s : pystr) : forall bs,
  utf16_le_encode s = Some bs ->
  units_of_bytes false bs ≫= code_points = Some s.
Proof.
  induction s as [| c s IH]; intros bs H.
  - injection H as <-. reflexivity.
  - cbn [utf16_le_encode] in H. unfold code_units in H.
    destruct (is_scalar c) eqn:Hc; [| discriminate]. cbn [negb] in H.
    apply is_scalar_bounds in Hc as [Hr Hs].
    destruct (utf16_le_encode s) as [bs' |] eqn:He;
      [| destruct (c <? 65536); discriminate].
    specialize (IH bs' eq_refl).
    destruct (units_of_bytes false bs') as [us |] eqn:Hu; [| discriminate].
    cbn [mbind option_bind] in IH.
    destruct (c <? 65536) eqn:Hlt; injection H as <-.
    + apply Z.ltb_lt in Hlt.
      change (units_of_bytes false (unit_bytes_le c ++ bs') ≫= code_points
              = Some (c :: s)).
      rewrite units_of_bytes_unit, Hu by lia. cbn [mbind option_bind].
      rewrite code_points_bmp, IH; [reflexivity | |];
        unfold is_high_surrogate, is_low_surrogate;
        apply andb_false_iff; rewrite !Z.leb_gt; lia.
    + apply Z.ltb_ge in Hlt.
      change (units_of_bytes false
                (unit_bytes_le (55296 + Z.shiftr (c - 65536) 10) ++
                 unit_bytes_le (56320 + Z.land (c - 65536) 1023) ++ bs')
                ≫= code_points = Some (c :: s)).
      rewrite Z.shiftr_div_pow2 by lia. change 1023 with (Z.ones 10).
      rewrite Z.land_ones by lia. change (2 ^ 10) with 1024.
      pose proof (Z.div_mod (c - 65536) 1024 ltac:(lia)) as Hdm.
      pose proof (Z.mod_pos_bound (c - 65536) 1024 ltac:(lia)) as Hm.
      set (q := (c - 65536) / 1024) in *.
      set (m := (c - 65536) mod 1024) in *.
      rewrite units_of_bytes_unit, units_of_bytes_unit, Hu by lia.
      cbn [mbind option_bind].
      rewrite code_points_pair, IH.
      * f_equal. f_equal. lia.
      * unfold is_high_surrogate. apply andb_true_intro.
        rewrite !Z.leb_le. lia.
      * unfold is_low_surrogate. apply andb_true_intro.
        rewrite !Z.leb_le. lia.
Qed.

Lemma utf16_decode_bom (bs : list Z) :
  utf16_decode (BOM_LE ++ bs) = units_of_bytes false bs ≫= code_points.
Proof. reflexivity. Qed.

(* ===================================================================== *)
(** * Splitting and joining                                               *)
(* ===================================================================== *)

Lemma split_on_app (sep : Z) (a b : pystr) :
  forallb (fun c => negb (c =? sep)) a = true ->
  split_on sep (a ++ sep :: b) = a :: split_on sep b.
Proof.
  induction a as [| c a IH]; intros H.
  - cbn [app split_on]. now rewrite Z.eqb_refl.
  - cbn [forallb] in H. apply andb_prop in H as [Hc Ha].
    cbn [app split_on]. rewrite (negb_true_iff _) in Hc. rewrite Hc.
    now rewrite IH.
Qed.

Lemma split_on_none (sep : Z) (a : pystr) :
  forallb (fun c => negb (c =? sep)) a = true -> split_on sep a = [a].
Proof.
  induction a as [| c a IH]; intros H; [reflexivity |].
  cbn [forallb] in H. apply andb_prop in H as [Hc Ha].
  cbn [split_on]. rewrite (negb_true_iff _) in Hc. rewrite Hc.
  now rewrite IH.
Qed.

Lemma join_cons2 (sep x y : pystr) (rest : list pystr) :
  join sep (x :: y :: rest) = x ++ sep ++ join sep (y :: rest).
Proof. reflexivity. Qed.

(** Splitting a joined record on the tab gives its fields, when no field
    has a tab and there is at least one field. *)
Lemma split_join (r : list pystr) :
  r <> [] ->
  forallb (forallb (fun c => negb (c =? TAB))) r = true ->
  split_on TAB (join [TAB] r) = r.
Proof.
  induction r as [| x r IH]; intros Hne H; [contradiction |].
  cbn [forallb] in H. apply andb_prop in H as [Hx Hr].
  destruct r as [| y r].
  - now apply split_on_none.
  - rewrite join_cons2. cbn [app]. rewrite split_on_app by assumption.
    f_equal. now apply IH.
Qed.

Lemma forallb_join (P : Z -> bool) (sep : pystr) (r : list pystr) :
  forallb P sep = true -> forallb (forallb P) r = true ->
  forallb P (join sep r) = true.
Proof.
  intros Hsep. induction r as [| x r IH]; intros H; [reflexivity |].
  cbn [forallb] in H. apply andb_prop in H as [Hx Hr].
  destruct r as [| y r]; [assumption |].
  rewrite join_cons2, !forallb_app, Hx, Hsep. now apply IH.
Qed.

(** Splitting the text of a dataset on the line feed gives its lines and
    an empty rest, when no line has a line feed. *)
Lemma split_snapshot_text (data : list (list pystr)) :
  forallb (fun r => forallb (fun c => negb (c =? LF)) (join [TAB] r)) data
    = true ->
  split_on LF (snapshot_text data) = List.map (join [TAB]) data ++ [[]].
Proof.
  induction data as [| r data IH]; intros H; [reflexivity |].
  cbn [forallb] in H. apply andb_prop in H as [Hr Hd].
  unfold snapshot_text. cbn [List.flat_map]. fold (snapshot_text data).
  unfold line_of. rewrite <- app_assoc. cbn [app].
  rewrite split_on_app by assumption. cbn [List.map app]. f_equal.
  now apply IH.
Qed.

Lemma split_lines_snapshot_text (data : list (list pystr)) :
  forallb (fun r => forallb (fun c => negb (c =? LF)) (join [TAB] r)) data
    = true ->
  split_lines (snapshot_text data) = List.map (join [TAB]) data.
Proof.
  intros H. unfold split_lines. rewrite split_snapshot_text by assumption.
  rewrite last_snoc. apply List.removelast_last.
Qed.

(** What plain records give. *)
Lemma plain_field_parts (f : pystr) :
  plain_field f = true ->
  forallb is_scalar f = true
  /\ forallb (fun c => negb (c =? TAB)) f = true
  /\ forallb (fun c => negb (c =? LF)) f = true.
Proof.
  unfold plain_field. induction f as [| c f IH]; intros H; [now repeat split |].
  cbn [forallb] in *. apply andb_prop in H as [Hc Hf].
  apply andb_prop in Hc as [Hc H3]. apply andb_prop in Hc as [H1 H2].
  destruct (IH Hf) as [I1 [I2 I3]].
  now rewrite H1, H2, H3, I1, I2, I3.
Qed.

Lemma plain_fields_parts (r : list pystr) :
  forallb plain_field r = true ->
  forallb (forallb is_scalar) r = true
  /\ forallb (forallb (fun c => negb (c =? TAB))) r = true
  /\ forallb (forallb (fun c => negb (c =? LF))) r = true.
Proof.
  induction r as [| f r IH]; intros H; [now repeat split |].
  cbn [forallb] in *. apply andb_prop in H as [Hf Hr].
  destruct (plain_field_parts f Hf) as [H1 [H2 H3]].
  destruct (IH Hr) as [I1 [I2 I3]].
  now rewrite H1, H2, H3, I1, I2, I3.
Qed.

Lemma plain_records_text (data : list (list pystr)) :
  forallb plain_record data = true ->
  forallb is_scalar (snapshot_text data) = true
  /\ forallb (fun r => forallb (fun c => negb (c =? LF)) (join [TAB] r)) data
     = true
  /\ List.map (split_on TAB) (List.map (join [TAB]) data) = data.
Proof.
  induction data as [| r data IH]; intros H; [now repeat split |].
  cbn [forallb] in H. apply andb_prop in H as [Hr Hd].
  unfold plain_record in Hr. apply andb_prop in Hr as [Hlen Hf].
  apply Nat.eqb_eq in Hlen.
  destruct (plain_fields_parts r Hf) as [H1 [H2 H3]].
  destruct (IH Hd) as [I1 [I2 I3]].
  unfold snapshot_text. cbn [List.flat_map forallb List.map].
  fold (snapshot_text data). unfold line_of.
  rewrite !forallb_app, I1, I2, I3.
  rewrite (forallb_join is_scalar) by (assumption || reflexivity).
  rewrite (forallb_join (fun c => negb (c =? LF))) by (assumption || reflexivity).
  rewrite split_join; [now repeat split | | assumption].
  intros ->. discriminate.
Qed.

(* ===================================================================== *)
(** * The snapshot writer                                                 *)
(* ===================================================================== *)

Lemma file_write_run (path : pystr) (start : bool) (t : pystr) (w : world) :
  file_write path start t w =
  match utf16_le_encode t with
  | Some bs =>
      (Ok tt,
       set_fs (<[path := default [] (fs w !! path) ++
                         (if start then BOM_LE else []) ++ bs]> (fs w)) w)
  | None => (Raise (Exc UnicodeEncodeError), w)
  end.
Proof. unfold file_write. now destruct (utf16_le_encode t). Qed.

(** The loop of line 172: all lines are written, after the byte order
    mark when the loop starts the stream; or some field cannot be encoded
    and the loop raises. *)
Lemma write_lines_run (path : pystr) (data : list (list pystr)) :
  forall (start : bool) (w : world),
  match utf16_le_encode (snapshot_text data) with
  | Some bs =>
      fst (write_lines path data start w) = Ok tt
      /\ fs (snd (write_lines path data start w)) =
         match data with
         | [] => fs w
         | _ :: _ =>
             <[path := default [] (fs w !! path) ++
                       (if start then BOM_LE else []) ++ bs]> (fs w)
         end
  | None => fst (write_lines path data start w) = Raise (Exc UnicodeEncodeError)
  end.
Proof.
  induction data as [| r data IH]; intros start w.
  - cbn. now split.
  - unfold snapshot_text. cbn [List.flat_map]. fold (snapshot_text data).
    rewrite utf16_le_encode_app. cbn [write_lines]. fold (line_of r).
    unfold bind. rewrite file_write_run.
    destruct (utf16_le_encode (line_of r)) as [b1 |]; [| reflexivity].
    set (w1 := set_fs _ w).
    specialize (IH false w1).
    destruct (utf16_le_encode (snapshot_text data)) as [b2 |] eqn:E2;
      [| exact IH].
    destruct IH as [IH1 IH2]. split; [exact IH1 |].
    rewrite IH2. destruct data as [| r' data].
    + cbn in E2. injection E2 as <-. subst w1. wsimpl.
      now rewrite app_nil_r.
    + subst w1. wsimpl. rewrite lookup_insert_eq, insert_insert_eq.
      cbn [default from_option app]. unfold id. f_equal.
      now rewrite <- !app_assoc.
Qed.

(** The function up to its loop: the file is there and empty. *)
Lemma save_data_to_txt_unfold (data : list (list pystr)) (dir : pystr)
    (w : world) :
  save_data_to_txt data dir w =
  let path := snapshot_file (env w) dir in
  match write_lines path data true (set_fs (<[path := []]> (fs w)) w) with
  | (Ok _, w') => (Ok path, add_log (INFO, str "Data saved to " ++ path) w')
  | (Raise e, w') => (Raise e, w')
  end.
Proof.
  cbv [save_data_to_txt bind gets path_exists when unlink open_w
       modify logger_info ret snapshot_file].
  match goal with
  | |- context [bool_decide ?P] => destruct (bool_decide P)
  end; wsimpl; [rewrite insert_delete_eq |];
    destruct (write_lines _ data true _) as [[[] | e] w']; reflexivity.
Qed.

(** The file that [save_data_to_txt] leaves. *)
Lemma save_data_to_txt_run (data : list (list pystr)) (dir : pystr)
    (w : world) :
  match snapshot_bytes data with
  | Some bs =>
      fst (save_data_to_txt data dir w) = Ok (snapshot_file (env w) dir)
      /\ fs (snd (save_data_to_txt data dir w)) =
         <[snapshot_file (env w) dir := bs]> (fs w)
  | None =>
      fst (save_data_to_txt data dir w) = Raise (Exc UnicodeEncodeError)
  end.
Proof.
  rewrite save_data_to_txt_unfold. cbv zeta.
  set (path := snapshot_file (env w) dir).
  pose proof (write_lines_run path data true
                (set_fs (<[path := []]> (fs w)) w)) as H.
  destruct (write_lines path data true _) as [r w'].
  unfold snapshot_bytes. cbn [fst snd] in H.
  destruct data as [| r0 data].
  - cbn in H. destruct H as [-> Hfs]. cbn [fst snd]. wsimpl.
    now rewrite Hfs.
  - destruct (utf16_le_encode (snapshot_text (r0 :: data))) as [bs |].
    + destruct H as [-> Hfs]. cbn [fst snd]. wsimpl. split; [reflexivity |].
      rewrite Hfs. wsimpl.
      now rewrite lookup_insert_eq, insert_insert_eq.
    + now rewrite H.
Qed.

(** Reading back the snapshot of plain records gives the records. *)
Lemma read_snapshot_plain (data : list (list pystr)) :
  forallb plain_record data = true ->
  exists bs, snapshot_bytes data = Some bs /\ read_snapshot bs = Some data.
Proof.
  intros H. destruct (plain_records_text data H) as [Hs [Hl Hsplit]].
  destruct data as [| r data]; [now exists [] |].
  destruct (utf16_le_encode_scalars _ Hs) as [bs Hbs].
  exists (BOM_LE ++ bs). unfold snapshot_bytes. rewrite Hbs.
  split; [reflexivity |].
  unfold read_snapshot. rewrite utf16_decode_bom.
  rewrite (decode_encode _ _ Hbs).
  now rewrite split_lines_snapshot_text, Hsplit.
Qed.

(** C6 (as amended).  For a dataset of records of eight fields in which
    no field has a tab or a line feed and every field can be encoded in
    UTF-16, [save_data_to_txt] returns the path of the snapshot, and
    reading the file at that path back (decoding it as UTF-16, splitting
    it into lines, splitting each line on the tab) gives the dataset:
    as many rows, eight fields each, field for field the same. *)
Theorem snapshot_round_trip (data : list (list pystr)) (dir : pystr)
    (w : world) :
  forallb plain_record data = true ->
  exists bs,
    fst (save_data_to_txt data dir w) = Ok (snapshot_file (env w) dir)
    /\ fs (snd (save_data_to_txt data dir w)) !! snapshot_file (env w) dir
       = Some bs
    /\ read_snapshot bs = Some data
    /\ Forall (fun r : list pystr => length r = 8%nat) data.
Proof.
  intros H. destruct (read_snapshot_plain data H) as [bs [Hbs Hread]].
  exists bs. pose proof (save_data_to_txt_run data dir w) as Hrun.
  rewrite Hbs in Hrun. destruct Hrun as [Hpath Hfs].
  split; [exact Hpath |]. split; [| split; [exact Hread |]].
  - rewrite Hfs. apply lookup_insert_eq.
  - apply Forall_forall. intros r Hr.
    rewrite forallb_forall in H. apply list_elem_of_In in Hr.
    specialize (H r Hr). unfold plain_record in H.
    apply andb_prop in H as [Hlen _]. now apply Nat.eqb_eq.
Qed.

Lemma snapshot_round_trip_witness :
  forallb plain_record plain_data = true
  /\ fs (snd (save_data_to_txt plain_data (str "/work") (world_with calm [])))
       !! snapshot_path ≫= read_snapshot = Some plain_data.
Proof.
  split; [reflexivity |].
  destruct (snapshot_round_trip plain_data (str "/work") (world_with calm [])
              eq_refl) as [bs [_ [Hfile [Hread _]]]].
  change (snapshot_file (env (world_with calm [])) (str "/work"))
    with snapshot_path in Hfile.
  rewrite Hfile. exact Hread.
Defined.

(** C6, the claim as stated, fails: a record of eight fields with a tab
    in its title is read back as a row of nine fields, and a record with
    a line feed in its description as two rows. *)
Lemma tab_or_line_feed_breaks_round_trip :
  (Forall (fun r : list pystr => length r = 8%nat) tabbed_data
   /\ fs (snd (save_data_to_txt tabbed_data (str "/work") (world_with calm [])))
        !! snapshot_path ≫= read_snapshot
      = Some [[str "20240101"; str "1000"; str "Show"; str "A"; str "Desc";
               str "EP1"; str "2020"; str "PG"; str "Drama"]]
   /\ fs (snd (save_data_to_txt tabbed_data (str "/work") (world_with calm [])))
        !! snapshot_path ≫= read_snapshot
      <> Some tabbed_data)
  /\ (Forall (fun r : list pystr => length r = 8%nat) two_line_data
      /\ fs (snd (save_data_to_txt two_line_data (str "/work")
                    (world_with calm [])))
           !! snapshot_path ≫= read_snapshot
         = Some [[str "20240101"; str "1000"; str "Show A"; str "Line 1"];
                 [str "Line 2"; str "EP1"; str "2020"; str "PG"; str "Drama"]]).
Proof.
  split; [split; [| split] | split].
  - repeat constructor.
  - vm_compute. reflexivity.
  - vm_compute. discriminate.
  - repeat constructor.
  - vm_compute. reflexivity.
Qed.

(* ===================================================================== *)
(** * What each step of the run leaves alone                              *)
(* ===================================================================== *)

Section StepFrames.
Context {X : Type} (f : world -> X).
Hypothesis Hlog : forall r w, f (add_log r w) = f w.
Hypothesis Hsleep : forall d w, f (sleep d w) = f w.

Lemma logger_info_preserves msg : preserves f (logger_info msg).
Proof. apply preserves_modify. intros w. apply Hlog. Qed.

Lemma warn_if_none_preserves x msg : preserves f (warn_if_none x msg).
Proof.
  destruct x; [apply preserves_ret |].
  apply preserves_modify. intros w. apply Hlog.
Qed.

Lemma parse_record_preserves record : preserves f (parse_record record).
Proof.
  intros w. rewrite parse_record_run.
  destruct (has_title record); [| reflexivity].
  destruct (is_filler record); [reflexivity |]. cbn [snd].
  induction (warnings_of record) as [| r rs IH] using rev_ind.
  - now rewrite add_logs_nil.
  - rewrite <- add_logs_add_logs. change (add_logs [r] ?w) with (add_log r w).
    now rewrite Hlog.
Qed.

Lemma parse_records_preserves records :
  forall acc, preserves f (parse_records records acc).
Proof.
  induction records as [| r records IH]; intros acc.
  - apply preserves_ret.
  - cbn [parse_records]. apply preserves_bind.
    + apply parse_record_preserves.
    + intros [data_row |]; apply IH.
Qed.

Lemma parse_xml_content_preserves xml : preserves f (parse_xml_content xml).
Proof.
  unfold parse_xml_content. apply preserves_bind.
  - destruct xml; [apply preserves_ret | apply preserves_raise].
  - intros root. apply preserves_bind; [apply logger_info_preserves |].
    intros _. apply parse_records_preserves.
Qed.

(** The fetch loop. *)
Hypothesis Hget :
  forall url w, f (next_tick (add_event (EvHttpGet url) w)) = f w.

Lemma fetch_url_preserves url : preserves f (fetch_url url).
Proof.
  apply preserves_retry; [| exact Hsleep].
  unfold fetch_url_body, requests_get.
  repeat (apply preserves_bind; [| intros ?]);
    try apply preserves_ret; try apply preserves_gets;
    try apply logger_info_preserves.
  apply preserves_external. apply Hget.
Qed.

Lemma fetch_all_preserves urls : forall acc, preserves f (fetch_all urls acc).
Proof.
  induction urls as [| url urls IH]; intros acc.
  - apply preserves_ret.
  - cbn [fetch_all]. destruct (truthy url); [| apply IH].
    apply preserves_bind; [apply fetch_url_preserves |].
    intros response. apply preserves_bind; [| intros rows; apply IH].
    apply parse_xml_content_preserves.
Qed.
End StepFrames.

Section PublishFrames.
Context {X : Type} (f : world -> X).
Hypothesis Hlog : forall r w, f (add_log r w) = f w.
Hypothesis Hsleep : forall d w, f (sleep d w) = f w.

Lemma update_google_sheet_preserves data :
  (forall ev w, f (next_tick (add_event ev w)) = f w) ->
  (forall s w, f (set_sheet s w) = f w) ->
  preserves f (update_google_sheet data).
Proof.
  intros Hev Hsheet. apply preserves_retry; [| exact Hsleep].
  unfold update_google_sheet_body, batch_clear, batch_update.
  repeat (apply preserves_bind; [| intros ?]);
    try (apply preserves_external; apply Hev);
    try (apply preserves_modify; intros w; apply Hsheet);
    try (apply logger_info_preserves; assumption).
  destruct (forallb fits _).
  - apply preserves_modify. intros w. apply Hsheet.
  - intros w. reflexivity.
Qed.

Lemma write_lines_preserves path data :
  (forall g w, f (set_fs g w) = f w) ->
  forall start, preserves f (write_lines path data start).
Proof.
  intros Hfs. induction data as [| r data IH]; intros start.
  - apply preserves_ret.
  - cbn [write_lines]. apply preserves_bind; [| intros _; apply IH].
    intros w. rewrite file_write_run.
    destruct (utf16_le_encode _); [apply Hfs | reflexivity].
Qed.

Lemma save_data_to_txt_preserves data dir :
  (forall g w, f (set_fs g w) = f w) ->
  preserves f (save_data_to_txt data dir).
Proof.
  intros Hfs w. rewrite save_data_to_txt_unfold. cbv zeta.
  pose proof (write_lines_preserves (snapshot_file (env w) dir) data Hfs true
                (set_fs (<[snapshot_file (env w) dir := []]> (fs w)) w)) as H.
  destruct (write_lines _ data true _) as [[[] | e] w']; cbn [snd] in *.
  - now rewrite Hlog, H, Hfs.
  - now rewrite H, Hfs.
Qed.

End PublishFrames.

Lemma col_values_run col w :
  col_values col w =
  match fault (env w) (tick w) with
  | Some e => (Raise e, next_tick (add_event (EvColValues col) w))
  | None => (Ok (read_col col (sheet w)),
             next_tick (add_event (EvColValues col) w))
  end.
Proof.
  unfold col_values, bind, external, gets.
  now destruct (fault (env w) (tick w)).
Qed.

Lemma sheet_get_run rg w :
  sheet_get rg w =
  match fault (env w) (tick w) with
  | Some e => (Raise e, next_tick (add_event (EvSheetGet rg) w))
  | None => (Ok (read_range rg (sheet w)),
             next_tick (add_event (EvSheetGet rg) w))
  end.
Proof.
  unfold sheet_get, bind, external, gets.
  now destruct (fault (env w) (tick w)).
Qed.

Lemma publishing_calls_reads_only ev w :
  reads_only ev = true ->
  publishing_calls (add_event ev w) = publishing_calls w.
Proof.
  intros H. unfold publishing_calls, add_event. cbn [trace].
  rewrite List.filter_app. cbn [List.filter]. rewrite H. cbn [negb].
  apply app_nil_r.
Qed.

(** The fetch loop writes nothing: not to the sheet, not to the disk, not
    to the mail relay. *)
Lemma fetch_all_writes_nothing urls acc w :
  let w' := snd (fetch_all urls acc w) in
  sheet w' = sheet w /\ fs w' = fs w /\ outbox w' = outbox w
  /\ publishing_calls w' = publishing_calls w /\ env w' = env w.
Proof.
  cbv zeta. repeat split.
  - now apply (fetch_all_preserves sheet).
  - now apply (fetch_all_preserves fs).
  - now apply (fetch_all_preserves outbox).
  - apply (fetch_all_preserves publishing_calls); try reflexivity.
    + intros d w0. now apply publishing_calls_reads_only.
    + intros url w0. now apply (publishing_calls_reads_only (EvHttpGet url)).
  - now apply (fetch_all_preserves env).
Qed.

(** C5.  When the loop over the URLs raises (a fetch that exhausted its
    retries, a fetch that raised something the decorator does not retry,
    or a parse that failed), the run ends with that exception at that
    point: the sheet, its range A2:H included, is as it was, so are the
    files, no mail was sent, and no call was made that updates the sheet,
    reads it back or talks to the mail relay. *)
Theorem failed_fetch_aborts_run (w w1 w2 : world) (column : list pystr)
    (e : exn) :
  col_values COLUMN_INDEX w = (Ok column, w1) ->
  fetch_all (drop 1 column) [] w1 = (Raise e, w2) ->
  main w = (Raise e, w2)
  /\ sheet w2 = sheet w
  /\ read_range A2_H (sheet w2) = read_range A2_H (sheet w)
  /\ fs w2 = fs w
  /\ outbox w2 = outbox w
  /\ publishing_calls w2 = publishing_calls w.
Proof.
  intros Hcol Hfetch.
  assert (Hmain : main w = (Raise e, w2)).
  { unfold main. rewrite (bind_ok _ _ _ _ _ Hcol).
    now rewrite (bind_raise _ _ _ _ _ Hfetch). }
  pose proof (fetch_all_writes_nothing (drop 1 column) [] w1) as F.
  rewrite Hfetch in F. cbn [snd] in F.
  destruct F as [Fs [Ff [Fo [Fp _]]]].
  rewrite col_values_run in Hcol.
  destruct (fault (env w) (tick w)); [discriminate |].
  injection Hcol as _ <-.
  assert (Hsheet : sheet w2 = sheet w) by (rewrite Fs; reflexivity).
  repeat split; try assumption.
  - now rewrite Hsheet.
  - rewrite Fp. unfold next_tick, publishing_calls. cbn [trace].
    now apply (publishing_calls_reads_only (EvColValues COLUMN_INDEX)).
Qed.

Lemma failed_fetch_aborts_run_witness :
  let w := world_with (failing_after_first (Exc RequestsConnectionError))
                      [url_a; url_b] in
  let column := [str "URL"; url_a; url_b] in
  let e := RetryErr (Exc RequestsConnectionError) in
  let w1 := snd (col_values COLUMN_INDEX w) in
  let w2 := snd (fetch_all (drop 1 column) [] w1) in
  col_values COLUMN_INDEX w = (Ok column, w1)
  /\ fetch_all (drop 1 column) [] w1 = (Raise e, w2)
  /\ main w = (Raise e, w2)
  /\ sheet w2 = sheet w
  /\ read_range A2_H (sheet w2) = read_range A2_H (sheet w)
  /\ fs w2 = fs w
  /\ outbox w2 = outbox w
  /\ publishing_calls w2 = publishing_calls w.
Proof.
  intros w column e w1 w2.
  assert (H1 : col_values COLUMN_INDEX w = (Ok column, w1))
    by (vm_compute; reflexivity).
  assert (H2 : fetch_all (drop 1 column) [] w1 = (Raise e, w2))
    by (vm_compute; reflexivity).
  exact (conj H1 (conj H2 (failed_fetch_aborts_run w w1 w2 column e H1 H2))).
Defined.

(* ===================================================================== *)
(** * From the sheet to the snapshot                                      *)
(* ===================================================================== *)



(** The rows read back are not the accumulated rows: a field that is
    [None] or empty comes back as the empty string, and a row loses the
    empty fields at its end. *)
Lemma read_back_differs_from_accumulator :
  let all_results :=
    [[Some (str "20240101"); None; Some (str "Show A"); Some [];
      Some (str "EP1"); Some []; None; Some []]] in
  fst (update_google_sheet all_results (world_with calm [])) = Ok tt
  /\ read_range A2_H
       (sheet (snd (update_google_sheet all_results (world_with calm []))))
     = [[str "20240101"; []; str "Show A"; []; str "EP1"]].
Proof. vm_compute. split; reflexivity. Qed.

(* ===================================================================== *)
(** * The fetch loop when nothing fails                                   *)
(* ===================================================================== *)

Lemma fetch_url_calm (url : pystr) (w : world) :
  fault (env w) (tick w) = None ->
  fetch_url url w =
  (Ok (web (env w) url),
   add_log (INFO, str "Processing URL: " ++ url)
           (next_tick (add_event (EvHttpGet url) w))).
Proof.
  intros H. apply retry_ok. now rewrite fetch_url_body_run, H.
Qed.

Lemma is_filler_has_title (record : Element) :
  is_filler record = true -> has_title record = true.
Proof.
  unfold is_filler, has_title, title_text.
  destruct (find record (str "TITEL")); [| discriminate].
  intros _. apply bool_decide_eq_true_2. eauto.
Qed.

Lemma kept_fillers (records : list Element) :
  forallb is_filler records = true -> kept records = [].
Proof.
  induction records as [| r records IH]; intros H; [reflexivity |].
  cbn [forallb] in H. apply andb_prop in H as [Hr Hrs].
  rewrite kept_cons, Hr. now apply IH.
Qed.

(** X2.  A feed that has only filler records gives no rows and no warnings:
    the parser logs the number of records found and returns the empty
    list. *)
Theorem filler_only_feed_gives_no_rows (root : Element) (w : world) :
  forallb is_filler (records_of root) = true ->
  parse_xml_content (WellFormed root) w =
  (Ok [],
   add_log (INFO, str "Count of records: " ++
                  str_of_nat (length (records_of root))) w).
Proof.
  intros H.
  assert (Ht : forallb has_title (records_of root) = true).
  { rewrite forallb_forall in *. intros r Hr.
    now apply is_filler_has_title, H. }
  rewrite (parse_xml_content_titled root w Ht), (kept_fillers _ H).
  reflexivity.
Qed.

Lemma filler_only_feed_gives_no_rows_witness :
  let root := Elem (str "programs") None [record_filler; record_filler] in
  forallb is_filler (records_of root) = true
  /\ parse_xml_content (WellFormed root) (world_with calm []) =
     (Ok [],
      add_log (INFO, str "Count of records: " ++
                     str_of_nat (length (records_of root)))
              (world_with calm [])).
Proof.
  intros root.
  assert (H : forallb is_filler (records_of root) = true)
    by (vm_compute; reflexivity).
  exact (conj H (filler_only_feed_gives_no_rows root (world_with calm []) H)).
Defined.

(** The loop of lines 185-188 when nothing fails. *)
Lemma fetch_all_calm (urls_list : list pystr) :
  forall (all_results : list row) (w : world),
  calm_world w ->
  forallb (feed_titled (env w)) (fetched urls_list) = true ->
  fst (fetch_all urls_list all_results w) =
    Ok (all_results ++ List.flat_map (feed_rows (env w)) (fetched urls_list))
  /\ trace (snd (fetch_all urls_list all_results w)) =
     trace w ++ List.map EvHttpGet (fetched urls_list).
Proof.
  induction urls_list as [| url urls IH]; intros acc w Hcalm Hfeeds.
  - cbn. now rewrite !app_nil_r.
  - unfold fetched in *. cbn [fetch_all List.filter] in *.
    destruct (truthy url) eqn:Hu; [| now apply IH].
    cbn [forallb List.flat_map List.map] in *.
    apply andb_prop in Hfeeds as [Hfeed Hrest].
    unfold bind. rewrite (fetch_url_calm url w (Hcalm _)).
    unfold feed_titled, feed_rows in *.
    destruct (content (web (env w) url)) as [root |]; [| discriminate].
    rewrite (parse_xml_content_titled root _ Hfeed).
    match goal with
    | |- context [fetch_all urls ?a ?w1] =>
        destruct (IH a w1) as [IH1 IH2]; [exact Hcalm | exact Hrest |]
    end.
    rewrite IH1, IH2. wsimpl. split.
    + now rewrite <- app_assoc.
    + now rewrite <- app_assoc.
Qed.

(** X1.  When no external call fails and every feed that is fetched is
    well-formed with a title on every record, the loop of lines 185-188
    fetches each URL that is not empty exactly once, in the order of the
    list, skips the empty ones, and returns the rows of the feeds
    appended in that order after the rows it started with: no row is
    dropped, repeated or moved. *)
Theorem fetch_all_appends_feeds_in_order (urls_list : list pystr) :
  forall (all_results : list row) (w : world),
  calm_world w ->
  forallb (feed_titled (env w)) (fetched urls_list) = true ->
  fst (fetch_all urls_list all_results w) =
    Ok (all_results ++ List.flat_map (feed_rows (env w)) (fetched urls_list))
  /\ trace (snd (fetch_all urls_list all_results w)) =
     trace w ++ List.map EvHttpGet (fetched urls_list).
Proof. exact (fetch_all_calm urls_list). Qed.

Lemma fetch_all_appends_feeds_in_order_witness :
  let w := world_with calm [] in
  let urls := [str ""; url_a; url_b] in
  (forall n, fault (env w) n = None)
  /\ forallb (feed_titled (env w)) (fetched urls) = true
  /\ fst (fetch_all urls [] w) =
       Ok ([] ++ List.flat_map (feed_rows (env w)) (fetched urls))
  /\ trace (snd (fetch_all urls [] w)) =
       trace w ++ List.map EvHttpGet (fetched urls).
Proof.
  intros w urls.
  assert (Hc : calm_world w) by (intros n; reflexivity).
  assert (Hf : forallb (feed_titled (env w)) (fetched urls) = true)
    by (vm_compute; reflexivity).
  exact (conj Hc (conj Hf (fetch_all_appends_feeds_in_order urls [] w Hc Hf))).
Defined.

(* ===================================================================== *)
(** * More on the decorated functions                                     *)
(* ===================================================================== *)

(** Failed attempts that leave room for another one are followed by it. *)
Lemma attempts_recover {A} (r : retrying) (fn : M A) :
  forall n left st w e w1 a w2,
  failed_attempts r fn n w = Some (e, w1) ->
  fn (sleep (wait_fixed r) w1) = (Ok a, w2) ->
  (attempt_number st + n <= stop_after_attempt r)%nat ->
  (n <= left)%nat ->
  attempts r fn left st w =
  (Ok a, w2,
   {| attempt_number := (attempt_number st + n)%nat;
      idle_for := (idle_for st + n * wait_fixed r)%nat |}).
Proof.
  induction n as [| n IH]; intros left st w e w1 a w2 Hf Hok Hstop Hleft.
  - discriminate.
  - cbn [failed_attempts] in Hf.
    destruct (fn w) as [[a0 | e1] w0] eqn:Hfn; [discriminate |].
    destruct (isinstance e1 (retry_if_exception_type r)) eqn:Hi;
      [| discriminate].
    assert (Hle : (stop_after_attempt r <=? attempt_number st)%nat = false)
      by (apply Nat.leb_gt; lia).
    destruct left as [| left]; [lia |].
    rewrite attempts_unfold, Hfn, Hi. cbn [negb]. rewrite Hle.
    destruct n as [| n].
    + injection Hf as <- <-. rewrite attempts_unfold, Hok.
      do 2 f_equal; cbn [attempt_number idle_for]; lia.
    + rewrite (IH left _ _ e w1 a w2 Hf Hok); cbn [attempt_number idle_for];
        try lia.
      do 2 f_equal; lia.
Qed.

(** X4.  Up to four failures in a row of the class the decorator retries are
    absorbed: when the next attempt returns, the decorated call returns
    its result, after one sleep of 120 seconds for each failure. *)
Theorem retry_absorbs_transient_failures {A} (c : exc_class) (fn : M A)
    (n : nat) (w w1 w2 : world) (e : exn) (a : A) :
  (1 <= n <= 4)%nat ->
  failed_attempts (retry_5_120 c) fn n w = Some (e, w1) ->
  fn (sleep 120 w1) = (Ok a, w2) ->
  retry_call (retry_5_120 c) fn w =
    (Ok a, w2, {| attempt_number := S n; idle_for := n * 120 |})
  /\ retry (retry_5_120 c) fn w = (Ok a, w2).
Proof.
  intros Hn Hf Hok.
  assert (H : retry_call (retry_5_120 c) fn w =
              (Ok a, w2, {| attempt_number := S n; idle_for := n * 120 |})).
  { unfold retry_call.
    rewrite (attempts_recover _ fn n _ _ w e w1 a w2 Hf Hok);
      cbn [retry_5_120 stop_after_attempt wait_fixed attempt_number idle_for];
      try lia.
    reflexivity. }
  split; [exact H |]. unfold retry. now rewrite H.
Qed.

Lemma retry_absorbs_transient_failures_witness :
  let w := world_with (failing_before 2 (Exc RequestsConnectionError)) [] in
  let fn := fetch_url_body url_a in
  let w2 := snd (fetch_url url_a w) in
  let w1 := snd (default (Exc Exception, w)
                   (failed_attempts (retry_5_120 RequestException) fn 2 w)) in
  (1 <= 2 <= 4)%nat
  /\ failed_attempts (retry_5_120 RequestException) fn 2 w
     = Some (Exc RequestsConnectionError, w1)
  /\ fn (sleep 120 w1) = (Ok (sample_web url_a), w2)
  /\ retry_call (retry_5_120 RequestException) fn w =
       (Ok (sample_web url_a), w2, {| attempt_number := 3; idle_for := 2 * 120 |})
  /\ fetch_url url_a w = (Ok (sample_web url_a), w2).
Proof.
  intros w fn w2 w1.
  assert (Hn : (1 <= 2 <= 4)%nat) by lia.
  assert (Hf : failed_attempts (retry_5_120 RequestException) fn 2 w
               = Some (Exc RequestsConnectionError, w1))
    by (vm_compute; reflexivity).
  assert (Hok : fn (sleep 120 w1) = (Ok (sample_web url_a), w2))
    by (vm_compute; reflexivity).
  exact (conj Hn (conj Hf (conj Hok
           (retry_absorbs_transient_failures RequestException fn 2 w w1 w2
              (Exc RequestsConnectionError) (sample_web url_a) Hn Hf Hok)))).
Defined.

(** X6.  When the file to attach does not exist, the mailer raises
    [FileNotFoundError] at once: the decorator retries [SMTPException]
    only, so there is one attempt, no sleep, no connection to the mail
    relay, and nothing changes. *)
Theorem missing_attachment_is_not_retried (file_path : pystr) (w : world) :
  fs w !! file_path = None ->
  retry_call (retry_5_120 SMTPException) (send_email_body file_path) w =
    (Raise (Exc FileNotFoundError), w, one_attempt)
  /\ send_email_with_attachment file_path w =
    (Raise (Exc FileNotFoundError), w).
Proof.
  intros H.
  assert (Hb : send_email_body file_path w = (Raise (Exc FileNotFoundError), w)).
  { cbv [send_email_body bind gets read_bytes]. now rewrite H. }
  assert (Hr : retry_call (retry_5_120 SMTPException)
                 (send_email_body file_path) w =
               (Raise (Exc FileNotFoundError), w, one_attempt)).
  { unfold retry_call. now apply attempts_raise. }
  split; [exact Hr |].
  unfold send_email_with_attachment, retry. now rewrite Hr.
Qed.

Lemma missing_attachment_is_not_retried_witness :
  let w := world_with calm [] in
  fs w !! str "/work/none.txt" = None
  /\ retry_call (retry_5_120 SMTPException)
       (send_email_body (str "/work/none.txt")) w =
     (Raise (Exc FileNotFoundError), w, one_attempt)
  /\ send_email_with_attachment (str "/work/none.txt") w =
     (Raise (Exc FileNotFoundError), w).
Proof.
  intros w.
  assert (H : fs w !! str "/work/none.txt" = None)
    by (vm_compute; reflexivity).
  exact (conj H (missing_attachment_is_not_retried _ w H)).
Defined.

(* ===================================================================== *)
(** * Failures in the middle of a step                                    *)
(* ===================================================================== *)

(** Clearing A2:H twice is clearing it once. *)
Lemma clear_ranges_idem (cells : gmap (nat * nat) pystr) :
  clear_ranges [A2_H] (clear_ranges [A2_H] cells) = clear_ranges [A2_H] cells.
Proof.
  apply map_eq. intros rc. rewrite !clear_A2_H_lookup.
  now destruct (in_range A2_H rc).
Qed.

(** An attempt of the update that raises has cleared A2:H if its first
    call went through, and has done nothing otherwise. *)
Lemma update_body_raise_sheet (data : list row) (w w1 : world) (e : exn) :
  update_google_sheet_body data w = (Raise e, w1) ->
  sheet w1 = match fault (env w) (tick w) with
             | None => clear_ranges [A2_H] (sheet w)
             | Some _ => sheet w
             end.
Proof.
  cbv [update_google_sheet_body batch_clear batch_update bind external
       modify logger_info raise].
  destruct (fault (env w) (tick w)).
  { intros H. now injection H as _ <-. }
  wsimpl. destruct (fault (env w) (S (tick w))).
  { intros H. now injection H as _ <-. }
  destruct (forallb fits _); [discriminate |].
  intros H. now injection H as _ <-.
Qed.

Lemma attempts_update_raise (data : list row) (left : nat) :
  forall st w w' st' e,
  attempts (retry_5_120 APIError) (update_google_sheet_body data) left st w =
    (Raise e, w', st') ->
  (sheet w' = sheet w \/ sheet w' = clear_ranges [A2_H] (sheet w))
  /\ (fault (env w) (tick w) = None ->
      sheet w' = clear_ranges [A2_H] (sheet w)).
Proof.
  induction left as [| left IH]; intros st w w' st' e; rewrite attempts_unfold;
    destruct (update_google_sheet_body data w) as [[[] | e1] w0] eqn:Hb;
    try discriminate;
    pose proof (update_body_raise_sheet data w w0 e1 Hb) as Hs.
  - destruct (negb _);
      [| destruct (_ <=? _)%nat]; intros H; injection H as _ <- _;
      rewrite Hs; destruct (fault (env w) (tick w)); split;
      auto; discriminate.
  - destruct (negb _);
      [| destruct (_ <=? _)%nat];
      try (intros H; injection H as _ <- _;
           rewrite Hs; destruct (fault (env w) (tick w)); split;
           auto; discriminate).
    intros H. apply IH in H as [H1 H2]. revert H1 H2. wsimpl. rewrite Hs.
    intros H1 H2. destruct (fault (env w) (tick w)) eqn:Hf0.
    + split; [| discriminate]. exact H1.
    + rewrite clear_ranges_idem in *. split; [| intros _];
        destruct H1 as [-> | ->]; auto.
Qed.

(** X8.  A sheet update that ends with an exception has written no row: the
    sheet is as it was or has its range A2:H cleared, and it is cleared
    whenever the clear of the first attempt went through.  Nothing puts
    the old rows back. *)
Theorem failed_update_writes_no_row (data : list row) (w w' : world)
    (e : exn) :
  update_google_sheet data w = (Raise e, w') ->
  (sheet w' = sheet w \/ sheet w' = clear_ranges [A2_H] (sheet w))
  /\ (fault (env w) (tick w) = None ->
      forall rc, sheet w' !! rc =
                 if in_range A2_H rc then None else sheet w !! rc).
Proof.
  unfold update_google_sheet, retry, retry_call. intros H.
  destruct (attempts _ _ _ _ w) as [[r w0] st'] eqn:Ha.
  cbn [fst] in H. injection H as -> ->.
  apply attempts_update_raise in Ha as [H1 H2].
  split; [exact H1 |]. intros Hf rc. rewrite (H2 Hf).
  apply clear_A2_H_lookup.
Qed.

Lemma failed_update_writes_no_row_witness :
  let data := [row_of record_show_a] in
  let w := world_with (failing_after_first (Exc APIError)) [] in
  let w' := snd (update_google_sheet data w) in
  update_google_sheet data w = (Raise (RetryErr (Exc APIError)), w')
  /\ fault (env w) (tick w) = None
  /\ (sheet w' = sheet w \/ sheet w' = clear_ranges [A2_H] (sheet w))
  /\ forall rc, sheet w' !! rc =
                if in_range A2_H rc then None else sheet w !! rc.
Proof.
  intros data w w'.
  assert (H : update_google_sheet data w
              = (Raise (RetryErr (Exc APIError)), w'))
    by (vm_compute; reflexivity).
  assert (Hf : fault (env w) (tick w) = None) by reflexivity.
  pose proof (failed_update_writes_no_row data w w' _ H) as T.
  exact (conj H (conj Hf (conj (proj1 T) (proj2 T Hf)))).
Defined.

(** X9.  When the read-back of line 192 fails, the run ends there with that
    exception (the read is not decorated): the sheet has the new rows
    already, but no snapshot file is written and no mail is sent. *)
Theorem failed_read_back_stops_after_update (all_results : list row)
    (w w1 : world) (e : exn) :
  update_google_sheet all_results w = (Ok tt, w1) ->
  fault (env w1) (tick w1) = Some e ->
  publish all_results w =
    (Raise e, next_tick (add_event (EvSheetGet A2_H) w1))
  /\ (forall rc, in_range A2_H rc = true ->
                 sheet w1 !! rc = synced_cell all_results rc)
  /\ fs w1 = fs w
  /\ outbox w1 = outbox w.
Proof.
  intros Hup Hf. split; [| split; [| split]].
  - unfold publish. rewrite (bind_ok _ _ _ _ _ Hup).
    apply bind_raise. now rewrite sheet_get_run, Hf.
  - intros rc Hrc. now rewrite (update_google_sheet_cells _ _ _ Hup), Hrc.
  - pose proof (update_google_sheet_preserves fs) as P.
    specialize (P ltac:(reflexivity) ltac:(reflexivity) all_results
                  ltac:(reflexivity) ltac:(reflexivity) w).
    now rewrite Hup in P.
  - pose proof (update_google_sheet_preserves outbox) as P.
    specialize (P ltac:(reflexivity) ltac:(reflexivity) all_results
                  ltac:(reflexivity) ltac:(reflexivity) w).
    now rewrite Hup in P.
Qed.

Lemma failed_read_back_stops_after_update_witness :
  let data := [row_of record_show_a] in
  let w := world_with (failing_only 2 (Exc APIError)) [] in
  let w1 := snd (update_google_sheet data w) in
  update_google_sheet data w = (Ok tt, w1)
  /\ fault (env w1) (tick w1) = Some (Exc APIError)
  /\ publish data w =
     (Raise (Exc APIError), next_tick (add_event (EvSheetGet A2_H) w1)).
Proof.
  intros data w w1.
  assert (H : update_google_sheet data w = (Ok tt, w1))
    by (vm_compute; reflexivity).
  assert (Hf : fault (env w1) (tick w1) = Some (Exc APIError))
    by (vm_compute; reflexivity).
  exact (conj H (conj Hf
           (proj1 (failed_read_back_stops_after_update data w w1 _ H Hf)))).
Defined.

(** X7.  When the message was handed to the relay but the closing [quit]
    raises an [SMTPException], the decorator runs the whole function
    again: if the second attempt goes through, the call returns and the
    same message has been sent twice. *)
Theorem failed_quit_sends_the_mail_twice (file_path : pystr) (w : world)
    (payload : list Z) (e : exn) :
  fs w !! file_path = Some payload ->
  (forall k, (k < 4)%nat -> fault (env w) (k + tick w) = None) ->
  fault (env w) (4 + tick w) = Some e ->
  isinstance e SMTPException = true ->
  (forall k, (5 <= k < 10)%nat -> fault (env w) (k + tick w) = None) ->
  exists w',
    send_email_with_attachment file_path w = (Ok tt, w')
    /\ outbox w' =
       outbox w ++ [message_of (env w) file_path payload (log w);
                    message_of (env w) file_path payload (log w)]
    /\ sleeps w' = sleeps w ++ [120%nat].
Proof.
  intros Hfile Hpre He Hi Hpost.
  pose proof (Hpre 0%nat ltac:(lia)) as F0.
  pose proof (Hpre 1%nat ltac:(lia)) as F1.
  pose proof (Hpre 2%nat ltac:(lia)) as F2.
  pose proof (Hpre 3%nat ltac:(lia)) as F3.
  pose proof (Hpost 5%nat ltac:(lia)) as F5.
  pose proof (Hpost 6%nat ltac:(lia)) as F6.
  pose proof (Hpost 7%nat ltac:(lia)) as F7.
  pose proof (Hpost 8%nat ltac:(lia)) as F8.
  pose proof (Hpost 9%nat ltac:(lia)) as F9.
  cbn [Nat.add] in *.
  unfold send_email_with_attachment, retry, retry_call.
  rewrite attempts_unfold.
  cbv [send_email_body bind gets read_bytes external modify logger_info ret].
  rewrite Hfile.
  repeat (progress (wsimpl; cbv beta iota; rewrite ?F0, ?F1, ?F2, ?F3, ?He)).
  cbn [retry_5_120 retry_if_exception_type stop_after_attempt wait_fixed
       attempt_number Nat.sub]. rewrite Hi. cbn [negb Nat.leb].
  rewrite attempts_unfold.
  cbv [send_email_body bind gets read_bytes external modify logger_info ret].
  wsimpl. rewrite Hfile.
  repeat (progress (wsimpl; cbv beta iota;
                    rewrite ?F5, ?F6, ?F7, ?F8, ?F9)).
  eexists. split; [reflexivity |]. cbn [fst snd]. wsimpl.
  split.
  - rewrite <- ?app_assoc. reflexivity.
  - unfold sleeps. wsimpl. rewrite !List.flat_map_app. cbn [List.flat_map app].
    rewrite ?app_nil_r, <- ?app_assoc. reflexivity.
Qed.

Lemma failed_quit_sends_the_mail_twice_witness :
  let w := world_with (failing_only 4 (Exc SMTPServerDisconnected)) [] in
  fs w !! snapshot_path = Some [255; 254; 111; 0; 10; 0]
  /\ isinstance (Exc SMTPServerDisconnected) SMTPException = true
  /\ exists w',
    send_email_with_attachment snapshot_path w = (Ok tt, w')
    /\ outbox w' =
       outbox w ++ [message_of (env w) snapshot_path [255; 254; 111; 0; 10; 0]
                      (log w);
                    message_of (env w) snapshot_path [255; 254; 111; 0; 10; 0]
                      (log w)]
    /\ sleeps w' = sleeps w ++ [120%nat].
Proof.
  intros w.
  assert (Hfile : fs w !! snapshot_path = Some [255; 254; 111; 0; 10; 0])
    by (vm_compute; reflexivity).
  assert (Hi : isinstance (Exc SMTPServerDisconnected) SMTPException = true)
    by reflexivity.
  assert (Hpre : forall k, (k < 4)%nat -> fault (env w) (k + tick w) = None).
  { intros k Hk. do 4 (destruct k as [| k]; [reflexivity |]). lia. }
  assert (Hq : fault (env w) (4 + tick w) = Some (Exc SMTPServerDisconnected))
    by reflexivity.
  assert (Hpost : forall k, (5 <= k < 10)%nat ->
                            fault (env w) (k + tick w) = None).
  { intros k Hk. do 5 (destruct k as [| k]; [lia |]).
    do 5 (destruct k as [| k]; [reflexivity |]). lia. }
  exact (conj Hfile (conj Hi
           (failed_quit_sends_the_mail_twice snapshot_path w _ _
              Hfile Hpre Hq Hi Hpost))).
Defined.

(* ===================================================================== *)
(** * More on the snapshot file                                           *)
(* ===================================================================== *)

(** X11.  The snapshot file is replaced, not appended to: whatever the file
    held before, after [save_data_to_txt] it holds the byte order mark
    and the lines of the dataset (nothing at all for an empty dataset),
    every other file is as it was, and the path returned is the file of
    the day in the directory given. *)
Theorem snapshot_replaces_the_file (data : list (list pystr)) (dir : pystr)
    (w : world) (bs : list Z) :
  snapshot_bytes data = Some bs ->
  fst (save_data_to_txt data dir w) = Ok (snapshot_file (env w) dir)
  /\ fs (snd (save_data_to_txt data dir w)) !! snapshot_file (env w) dir
     = Some bs
  /\ (forall p, p <> snapshot_file (env w) dir ->
        fs (snd (save_data_to_txt data dir w)) !! p = fs w !! p)
  /\ (data = [] -> bs = []).
Proof.
  intros Hbs. pose proof (save_data_to_txt_run data dir w) as H.
  rewrite Hbs in H. destruct H as [Hp Hfs].
  split; [exact Hp |]. rewrite Hfs. split; [apply lookup_insert_eq |].
  split.
  - intros p Hne. now apply lookup_insert_ne.
  - intros ->. cbn in Hbs. now injection Hbs as <-.
Qed.

Lemma snapshot_replaces_the_file_witness :
  let w := world_with calm [] in
  snapshot_bytes [] = Some []
  /\ fs w !! snapshot_path = Some [255; 254; 111; 0; 10; 0]
  /\ fs (snd (save_data_to_txt [] (str "/work") w))
       !! snapshot_file (env w) (str "/work") = Some [].
Proof.
  intros w.
  assert (H : snapshot_bytes [] = Some []) by reflexivity.
  assert (Hold : fs w !! snapshot_path = Some [255; 254; 111; 0; 10; 0])
    by (vm_compute; reflexivity).
  exact (conj H (conj Hold
           (proj1 (proj2 (snapshot_replaces_the_file [] (str "/work") w [] H))))).
Defined.



Lemma utf16_le_encode_None_app (a b : pystr) :
  utf16_le_encode a = None -> utf16_le_encode (a ++ b) = None.
Proof. intros H. now rewrite utf16_le_encode_app, H. Qed.

(** The loop stops at the first line that cannot be encoded; the lines
    before it are in the file. *)
Lemma write_lines_stops (path : pystr) (bad : list pystr)
    (rest : list (list pystr)) (good : list (list pystr)) :
  utf16_le_encode (line_of bad) = None ->
  forall (start : bool) (w : world) (bs : list Z),
  utf16_le_encode (snapshot_text good) = Some bs ->
  fst (write_lines path (good ++ bad :: rest) start w)
    = Raise (Exc UnicodeEncodeError)
  /\ fs (snd (write_lines path (good ++ bad :: rest) start w)) =
     match good with
     | [] => fs w
     | _ :: _ =>
         <[path := default [] (fs w !! path) ++
                   (if start then BOM_LE else []) ++ bs]> (fs w)
     end.
Proof.
  intros Hbad. induction good as [| r good IH]; intros start w bs Hbs.
  - cbn [app write_lines]. fold (line_of bad). unfold bind.
    rewrite file_write_run, Hbad. now split.
  - unfold snapshot_text in Hbs. cbn [List.flat_map] in Hbs.
    fold (snapshot_text good) in Hbs. rewrite utf16_le_encode_app in Hbs.
    destruct (utf16_le_encode (line_of r)) as [b1 |] eqn:E1; [| discriminate].
    destruct (utf16_le_encode (snapshot_text good)) as [b2 |] eqn:E2;
      [| discriminate].
    injection Hbs as <-.
    cbn [app write_lines]. fold (line_of r). unfold bind.
    rewrite file_write_run, E1.
    match goal with
    | |- context [write_lines path (good ++ bad :: rest) false ?w1] =>
        destruct (IH false w1 b2 eq_refl) as [IH1 IH2];
        destruct (write_lines path (good ++ bad :: rest) false w1)
          as [r0 w0] eqn:Hw
    end.
    cbn [fst snd] in *. subst r0. split; [reflexivity |].
    rewrite IH2. destruct good as [| r' good].
    + cbn in E2. injection E2 as <-. wsimpl. now rewrite app_nil_r.
    + wsimpl. rewrite lookup_insert_eq, insert_insert_eq.
      cbn [default from_option app]. unfold id. f_equal.
      now rewrite <- !app_assoc.
Qed.

(** X13.  A field that UTF-16 cannot encode (a lone surrogate) makes
    [save_data_to_txt] raise [UnicodeEncodeError] at its record; the file
    is left with the records before it, and what the file held before
    the call is gone. *)
Theorem unencodable_field_truncates_snapshot
    (good rest : list (list pystr)) (bad : list pystr) (dir : pystr)
    (w : world) (bs : list Z) :
  snapshot_bytes good = Some bs ->
  utf16_le_encode (line_of bad) = None ->
  fst (save_data_to_txt (good ++ bad :: rest) dir w)
    = Raise (Exc UnicodeEncodeError)
  /\ fs (snd (save_data_to_txt (good ++ bad :: rest) dir w))
       !! snapshot_file (env w) dir = Some bs.
Proof.
  intros Hgood Hbad. rewrite save_data_to_txt_unfold. cbv zeta.
  set (path := snapshot_file (env w) dir).
  set (w0 := set_fs (<[path := []]> (fs w)) w).
  assert (Henc : exists b, utf16_le_encode (snapshot_text good) = Some b
                           /\ bs = match good with
                                   | [] => []
                                   | _ :: _ => BOM_LE ++ b
                                   end).
  { unfold snapshot_bytes in Hgood. destruct good as [| r good].
    - injection Hgood as <-. now exists [].
    - destruct (utf16_le_encode (snapshot_text (r :: good))) as [b |];
        [| discriminate].
      injection Hgood as <-. now exists b. }
  destruct Henc as [b [Hb ->]].
  destruct (write_lines_stops path bad rest good Hbad true w0 b Hb)
    as [H1 H2].
  destruct (write_lines path (good ++ bad :: rest) true w0) as [r0 w1].
  cbn [fst snd] in *. subst r0. cbn [fst snd]. split; [reflexivity |].
  rewrite H2. subst w0. destruct good as [| r good]; wsimpl.
  - apply lookup_insert_eq.
  - now rewrite !lookup_insert_eq.
Qed.

Lemma unencodable_field_truncates_snapshot_witness :
  let good := firstn 1 unencodable_data in
  let bad := [str "20240102"; str "1100"; [55296]; str "Desc"; str "EP2";
              str "2021"; str "G"; str "News"] in
  let rest := skipn 2 unencodable_data in
  let w := world_with calm [] in
  snapshot_bytes good = Some (default [] (snapshot_bytes good))
  /\ utf16_le_encode (line_of bad) = None
  /\ fst (save_data_to_txt (good ++ bad :: rest) (str "/work") w)
     = Raise (Exc UnicodeEncodeError)
  /\ fs (snd (save_data_to_txt (good ++ bad :: rest) (str "/work") w))
       !! snapshot_file (env w) (str "/work")
     = Some (default [] (snapshot_bytes good)).
Proof.
  intros good bad rest w.
  assert (H1 : snapshot_bytes good = Some (default [] (snapshot_bytes good)))
    by (vm_compute; reflexivity).
  assert (H2 : utf16_le_encode (line_of bad) = None)
    by (vm_compute; reflexivity).
  exact (conj H1 (conj H2
           (unencodable_field_truncates_snapshot good rest bad (str "/work") w
              _ H1 H2))).
Defined.

(* ===================================================================== *)
(** * Reading the sheet back                                              *)
(* ===================================================================== *)

(** A fold that takes the maximum of a measure of the keys gives a bound
    of the measure that some key reaches, or 0. *)
Lemma fold_max_spec (g : nat * nat -> nat)
    (f : nat * nat -> pystr -> nat -> nat) (m : gmap (nat * nat) pystr) :
  (forall rc x acc, f rc x acc = Nat.max (g rc) acc) ->
  (forall rc x, m !! rc = Some x -> (g rc <= map_fold f 0%nat m)%nat)
  /\ (map_fold f 0%nat m = 0%nat
      \/ exists rc x, m !! rc = Some x /\ g rc = map_fold f 0%nat m).
Proof.
  intros Hf.
  apply (map_fold_weak_ind
           (fun n (m : gmap (nat * nat) pystr) =>
              (forall rc x, m !! rc = Some x -> (g rc <= n)%nat)
              /\ (n = 0%nat \/ exists rc x, m !! rc = Some x /\ g rc = n))).
  - split; [| now left]. intros rc x H. now rewrite lookup_empty in H.
  - intros i x m0 n Hi [Hub Hat]. rewrite Hf. split.
    + intros rc y Hrc. rewrite lookup_insert in Hrc.
      destruct (decide (i = rc)) as [-> | Hne]; [lia |].
      specialize (Hub rc y Hrc). lia.
    + destruct (le_lt_dec n (g i)) as [Hle | Hlt].
      * right. exists i, x. rewrite lookup_insert_eq. split; [reflexivity | lia].
      * destruct Hat as [-> | [rc [y [Hrc Hg]]]]; [lia |].
        right. exists rc, y. split; [| lia].
        rewrite lookup_insert_ne; [assumption |]. intros ->. congruence.
Qed.

Lemma fold_max_reached (g : nat * nat -> nat)
    (f : nat * nat -> pystr -> nat -> nat) (m : gmap (nat * nat) pystr)
    (u : nat) :
  (forall rc x acc, f rc x acc = Nat.max (g rc) acc) ->
  (forall rc x, m !! rc = Some x -> (g rc <= u)%nat) ->
  (u = 0%nat \/ exists rc x, m !! rc = Some x /\ g rc = u) ->
  map_fold f 0%nat m = u.
Proof.
  intros Hf Hub Hat. destruct (fold_max_spec g f m Hf) as [Sub Sat].
  destruct Sat as [S0 | [rc [x [Hrc Hg]]]];
    destruct Hat as [-> | [rc' [x' [Hrc' Hg']]]]; try lia.
  - specialize (Sub rc' x' Hrc'). lia.
  - specialize (Hub rc x Hrc). lia.
  - specialize (Sub rc' x' Hrc'). specialize (Hub rc x Hrc). lia.
Qed.

Lemma synced_cell_Some (data : list row) (rc : nat * nat) (v : pystr) :
  synced_cell data rc = Some v ->
  v <> [] /\ exists r, data !! (rc.1 - 2)%nat = Some r
                       /\ r !! (rc.2 - 1)%nat = Some (Some v).
Proof.
  unfold synced_cell.
  destruct (data !! (rc.1 - 2)%nat) as [r |] eqn:Hr; [| discriminate].
  cbn [mbind option_bind].
  destruct (r !! (rc.2 - 1)%nat) as [[[| c s] |] |] eqn:Hc; try discriminate.
  intros H. injection H as <-. split; [discriminate |]. now exists r.
Qed.

(** The cells of A2:H that a read sees, after a synchronisation. *)
Lemma synced_range_lookup (data : list row) (cells : gmap (nat * nat) pystr)
    (rc : nat * nat) :
  (forall k, in_range A2_H k = true -> cells !! k = synced_cell data k) ->
  filter (fun kv : nat * nat * pystr =>
            in_range A2_H kv.1 = true /\ kv.2 <> []) cells !! rc =
  if in_range A2_H rc then synced_cell data rc else None.
Proof.
  intros Hcells. destruct (in_range A2_H rc) eqn:Hr.
  - destruct (synced_cell data rc) as [v |] eqn:Hv.
    + apply map_lookup_filter_Some. split; [now rewrite Hcells |].
      cbn [fst snd]. split; [assumption |].
      now apply (synced_cell_Some data rc v).
    + apply map_lookup_filter_None. left. now rewrite Hcells.
  - apply map_lookup_filter_None. right. intros x _ [Hin _].
    cbn [fst] in Hin. congruence.
Qed.

Lemma map_seq_lookup {A B} (F : nat -> B) (G : A -> B) (l : list A) :
  forall k, (forall i x, l !! i = Some x -> F (k + i)%nat = G x) ->
  List.map F (seq k (length l)) = List.map G l.
Proof.
  induction l as [| x l IH]; intros k H; [reflexivity |].
  cbn [length seq List.map]. f_equal.
  - rewrite <- (H 0%nat x eq_refl). f_equal. lia.
  - apply IH. intros i y Hi. rewrite <- (H (S i) y Hi). f_equal. lia.
Qed.

Lemma complete_row_fields (r : row) :
  complete_row r = true ->
  exists a1 a2 a3 a4 a5 a6 a7 a8 : Z * pystr,
    r = List.map (fun a : Z * pystr => Some (a.1 :: a.2))
                 [a1; a2; a3; a4; a5; a6; a7; a8].
Proof.
  unfold complete_row. intros H. apply andb_prop in H as [Hlen Hf].
  apply Nat.eqb_eq in Hlen.
  do 8 (destruct r as [| [[| ? ?] |] r]; try discriminate).
  destruct r; [| discriminate].
  match type of Hlen with
  | length [Some (?x1 :: ?s1); Some (?x2 :: ?s2); Some (?x3 :: ?s3);
            Some (?x4 :: ?s4); Some (?x5 :: ?s5); Some (?x6 :: ?s6);
            Some (?x7 :: ?s7); Some (?x8 :: ?s8)] = _ =>
      exists (x1, s1), (x2, s2), (x3, s3), (x4, s4), (x5, s5), (x6, s6),
             (x7, s7), (x8, s8)
  end.
  reflexivity.
Qed.

(** What is read back from A2:H after synchronising complete rows. *)
Lemma read_range_complete (data : list row) (cells : gmap (nat * nat) pystr) :
  forallb complete_row data = true ->
  (forall k, in_range A2_H k = true -> cells !! k = synced_cell data k) ->
  read_range A2_H cells = List.map row_strings data.
Proof.
  intros Hc Hcells. unfold read_range. cbn [first_row].
  set (m := filter _ cells).
  assert (Hm : forall rc, m !! rc =
                 if in_range A2_H rc then synced_cell data rc else None)
    by (intros rc; now apply synced_range_lookup).
  assert (Hrows : last_row m = match data with
                               | [] => 0%nat
                               | _ :: _ => S (length data)
                               end).
  { unfold last_row. apply (fold_max_reached fst); [reflexivity | |].
    - intros rc x Hx. rewrite Hm in Hx.
      destruct (in_range A2_H rc) eqn:Hr; [| discriminate].
      apply synced_cell_Some in Hx as [_ [r [Hr' _]]].
      apply lookup_lt_Some in Hr'. destruct data; cbn [length] in *; lia.
    - destruct data as [| r0 data0] eqn:Hd; [now left |]. right.
      rewrite <- Hd in *.
      assert (Hlen : (0 < length data)%nat) by (rewrite Hd; cbn; lia).
      destruct (lookup_lt_is_Some_2 data (length data - 1)%nat ltac:(lia))
        as [r Hr].
      assert (Hcr : complete_row r = true).
      { rewrite forallb_forall in Hc. apply Hc.
        apply list_elem_of_In, list_elem_of_lookup. eauto. }
      destruct (complete_row_fields r Hcr)
        as [a1 [a2 [a3 [a4 [a5 [a6 [a7 [a8 ->]]]]]]]].
      exists (S (length data), 1%nat), (a1.1 :: a1.2). split.
      + rewrite Hm. cbn [in_range fst snd].
        replace (2 <=? S (length data))%nat with true
          by (symmetry; apply Nat.leb_le; lia).
        cbn [andb Nat.leb]. unfold synced_cell. cbn [fst snd].
        replace (S (length data) - 2)%nat with (length data - 1)%nat by lia.
        rewrite Hr. reflexivity.
      + rewrite Hd. reflexivity. }
  replace (last_row m + 1 - 2)%nat with (length data)
    by (rewrite Hrows; destruct data; cbn [length]; lia).
  apply map_seq_lookup. intros i r Hr.
  assert (Hcr : complete_row r = true).
  { rewrite forallb_forall in Hc. apply Hc.
    apply list_elem_of_In, list_elem_of_lookup. eauto. }
  destruct (complete_row_fields r Hcr)
    as [a1 [a2 [a3 [a4 [a5 [a6 [a7 [a8 ->]]]]]]]].
  assert (Hcell : forall c, (1 <= c <= 8)%nat ->
            m !! ((2 + i)%nat, c) =
            List.map (fun a : Z * pystr => Some (a.1 :: a.2))
                     [a1; a2; a3; a4; a5; a6; a7; a8] !! (c - 1)%nat
              ≫= id).
  { intros c Hcb. rewrite Hm. cbn [in_range fst snd].
    replace (1 <=? c)%nat with true by (symmetry; apply Nat.leb_le; lia).
    replace (c <=? 8)%nat with true by (symmetry; apply Nat.leb_le; lia).
    cbn [andb Nat.leb Nat.add]. unfold synced_cell. cbn [fst snd].
    replace (S (S i) - 2)%nat with i by lia. rewrite Hr.
    cbn [mbind option_bind].
    do 9 (destruct c as [| c]; [try lia; reflexivity |]). lia. }
  assert (Hcols : last_col m (2 + i) = 8%nat).
  { unfold last_col.
    apply (fold_max_reached
             (fun rc => if (rc.1 =? 2 + i)%nat then rc.2 else 0%nat)).
    - intros rc x acc. now destruct (rc.1 =? 2 + i)%nat.
    - intros rc x Hx. destruct (rc.1 =? 2 + i)%nat; [| lia].
      rewrite Hm in Hx. destruct (in_range A2_H rc) eqn:Hin; [| discriminate].
      cbn [in_range] in Hin. apply andb_prop in Hin as [_ Hin].
      now apply Nat.leb_le in Hin.
    - right. exists ((2 + i)%nat, 8%nat), (a8.1 :: a8.2).
      rewrite (Hcell 8%nat) by lia. cbn [fst snd]. rewrite Nat.eqb_refl.
      split; reflexivity. }
  rewrite Hcols. cbn [seq List.map]. unfold cell_value.
  rewrite !Hcell by lia. reflexivity.
Qed.

(** X10.  After a sheet update that returns, for a dataset that has rows, all
    of eight fields that are strings and not empty, the range A2:H reads
    back as exactly that dataset: the same rows, in the same order, with
    the same fields. *)
Theorem complete_rows_read_back_unchanged (data : list row) (w w1 : world) :
  data <> [] ->
  forallb complete_row data = true ->
  update_google_sheet data w = (Ok tt, w1) ->
  read_range A2_H (sheet w1) = List.map row_strings data
  /\ (fault (env w1) (tick w1) = None ->
      fst (sheet_get A2_H w1) = Ok (List.map row_strings data)).
Proof.
  intros _ Hc Hup.
  assert (H : read_range A2_H (sheet w1) = List.map row_strings data).
  { apply read_range_complete; [assumption |]. intros k Hk.
    now rewrite (update_google_sheet_cells _ _ _ Hup), Hk. }
  split; [exact H |]. intros Hf. now rewrite sheet_get_run, Hf, H.
Qed.

Lemma complete_rows_read_back_unchanged_witness :
  let w := world_with calm [] in
  let w1 := snd (update_google_sheet scenario_data w) in
  scenario_data <> []
  /\ forallb complete_row scenario_data = true
  /\ update_google_sheet scenario_data w = (Ok tt, w1)
  /\ read_range A2_H (sheet w1) = List.map row_strings scenario_data.
Proof.
  intros w w1.
  assert (Hc : forallb complete_row scenario_data = true)
    by (vm_compute; reflexivity).
  assert (Hup : update_google_sheet scenario_data w = (Ok tt, w1))
    by (vm_compute; reflexivity).
  assert (Hn : scenario_data <> []) by discriminate.
  exact (conj Hn (conj Hc (conj Hup
           (proj1 (complete_rows_read_back_unchanged scenario_data w w1
                     Hn Hc Hup))))).
Defined.

(* ===================================================================== *)
(** * A run in which nothing fails                                        *)
(* ===================================================================== *)

Lemma calm_world_env (w w' : world) :
  env w' = env w -> calm_world w -> calm_world w'.
Proof. intros He Hc n. rewrite He. apply Hc. Qed.

Lemma update_google_sheet_calm (data : list row) (w : world) :
  calm_world w ->
  forallb (fun vals : row => (length vals <=? 8)%nat) data = true ->
  exists w1, update_google_sheet data w = (Ok tt, w1)
             /\ env w1 = env w /\ fs w1 = fs w /\ outbox w1 = outbox w
             /\ trace w1 = trace w ++ [EvBatchClear [A2_H];
                                       EvBatchUpdate (enumerate_rows data 2 [])].
Proof.
  intros Hc Hfit. eexists. split.
  - apply retry_ok.
    cbv [update_google_sheet_body batch_clear batch_update bind external
         modify logger_info].
    rewrite (Hc (tick w)). wsimpl. rewrite (Hc (S (tick w))).
    rewrite fits_enumerate_rows, Hfit. reflexivity.
  - repeat split; try reflexivity. wsimpl. now rewrite <- app_assoc.
Qed.

Lemma send_email_calm (file_path : pystr) (payload : list Z) (w : world) :
  calm_world w ->
  fs w !! file_path = Some payload ->
  exists w', send_email_with_attachment file_path w = (Ok tt, w')
             /\ outbox w' =
                outbox w ++ [message_of (env w) file_path payload (log w)]
             /\ fs w' = fs w /\ sheet w' = sheet w
             /\ trace w' = trace w ++ [EvSmtpConnect; EvStarttls; EvLogin;
                                       EvSendmail; EvQuit].
Proof.
  intros Hc Hfile. eexists. split.
  - apply retry_ok.
    cbv [send_email_body bind gets read_bytes external modify logger_info ret].
    rewrite Hfile.
    repeat (progress (wsimpl; cbv beta iota; rewrite ?(Hc _))).
    reflexivity.
  - repeat split; try reflexivity. wsimpl. now rewrite <- !app_assoc.
Qed.

Lemma complete_row_fits (data : list row) :
  forallb complete_row data = true ->
  forallb (fun vals : row => (length vals <=? 8)%nat) data = true.
Proof.
  intros H. rewrite forallb_forall in *. intros r Hr.
  specialize (H r Hr). unfold complete_row in H.
  apply andb_prop in H as [Hlen _]. apply Nat.eqb_eq in Hlen.
  apply Nat.leb_le. lia.
Qed.

(** X14.  The whole run, when no external call fails, every feed fetched is
    well-formed with a title on every record, and there are rows, each
    of eight fields that are strings and not empty: the run completes;
    its external calls are the read of column M, one fetch for each URL
    below the header that is not empty, the clear, the batch of rows,
    the read-back and the five calls of the mailer, in this order; the
    range A2:H of the sheet reads back as the rows of the feeds, in the
    order of the URL column; the snapshot file holds the bytes of these
    rows; and one message is sent, to which that file is attached. *)
Theorem calm_run_publishes_the_feeds (w : world) (bs : list Z) :
  let urls := fetched (drop 1 (read_col COLUMN_INDEX (sheet w))) in
  let rows := List.flat_map (feed_rows (env w)) urls in
  let path := snapshot_file (env w) (cwd (env w)) in
  calm_world w ->
  forallb (feed_titled (env w)) urls = true ->
  rows <> [] ->
  forallb complete_row rows = true ->
  snapshot_bytes (List.map row_strings rows) = Some bs ->
  exists w' logged,
    main w = (Ok tt, w')
    /\ trace w' =
       trace w ++ [EvColValues COLUMN_INDEX] ++ List.map EvHttpGet urls ++
       [EvBatchClear [A2_H]; EvBatchUpdate (enumerate_rows rows 2 []);
        EvSheetGet A2_H;
        EvSmtpConnect; EvStarttls; EvLogin; EvSendmail; EvQuit]
    /\ read_range A2_H (sheet w') = List.map row_strings rows
    /\ fs w' !! path = Some bs
    /\ outbox w' = outbox w ++ [message_of (env w) path bs logged].
Proof.
  intros urls rows path Hc Hfeeds Hne Hrows Hbs.
  pose (w0 := next_tick (add_event (EvColValues COLUMN_INDEX) w)).
  assert (Hcol : col_values COLUMN_INDEX w =
                 (Ok (read_col COLUMN_INDEX (sheet w)), w0))
    by (now rewrite col_values_run, (Hc (tick w))).
  assert (Hc0 : calm_world w0) by exact Hc.
  destruct (fetch_all_calm
              (drop 1 (read_col COLUMN_INDEX (sheet w))) [] w0 Hc0 Hfeeds)
    as [Hfetch Htrace].
  cbn [app] in Hfetch. apply run_ok in Hfetch.
  set (w1 := snd (fetch_all _ [] w0)) in Hfetch.
  destruct (fetch_all_writes_nothing
              (drop 1 (read_col COLUMN_INDEX (sheet w))) [] w0)
    as [_ [Ffs [Fout [_ Fenv]]]].
  fold w1 in Ffs, Fout, Fenv, Htrace. fold urls in Htrace.
  change (fs w0) with (fs w) in Ffs. change (outbox w0) with (outbox w) in Fout.
  change (env w0) with (env w) in Fenv.
  fold urls in Hfetch. fold rows in Hfetch.
  destruct (update_google_sheet_calm rows w1
              (calm_world_env w w1 Fenv Hc) (complete_row_fits rows Hrows))
    as [w2 [Hup [E2 [F2 [O2 T2]]]]].
  assert (Hread : read_range A2_H (sheet w2) = List.map row_strings rows).
  { apply read_range_complete; [assumption |]. intros k Hk.
    now rewrite (update_google_sheet_cells _ _ _ Hup), Hk. }
  pose (w3 := next_tick (add_event (EvSheetGet A2_H) w2)).
  assert (Hc2 : calm_world w2)
    by (apply (calm_world_env w); [congruence | exact Hc]).
  assert (Hget : sheet_get A2_H w2 = (Ok (List.map row_strings rows), w3))
    by (now rewrite sheet_get_run, (Hc2 (tick w2)), Hread).
  assert (E3 : env w3 = env w) by (change (env w2 = env w); congruence).
  pose proof (save_data_to_txt_run (List.map row_strings rows)
                (cwd (env w3)) w3) as Hsave.
  rewrite Hbs in Hsave. destruct Hsave as [Hp Hfs].
  apply run_ok in Hp.
  set (w4 := snd (save_data_to_txt _ _ w3)) in *.
  rewrite E3 in Hp, Hfs. fold path in Hp, Hfs.
  assert (E4 : env w4 = env w).
  { pose proof (save_data_to_txt_preserves env) as P.
    specialize (P ltac:(reflexivity) (List.map row_strings rows)
                  (cwd (env w)) ltac:(reflexivity) w3).
    rewrite Hp in P. cbn [snd] in P. congruence. }
  assert (S4 : sheet w4 = sheet w2).
  { pose proof (save_data_to_txt_preserves sheet) as P.
    specialize (P ltac:(reflexivity) (List.map row_strings rows)
                  (cwd (env w)) ltac:(reflexivity) w3).
    rewrite Hp in P. cbn [snd] in P. exact P. }
  assert (O4 : outbox w4 = outbox w).
  { pose proof (save_data_to_txt_preserves outbox) as P.
    specialize (P ltac:(reflexivity) (List.map row_strings rows)
                  (cwd (env w)) ltac:(reflexivity) w3).
    rewrite Hp in P. cbn [snd] in P.
    change (outbox w3) with (outbox w2) in P. congruence. }
  assert (T4 : trace w4 = trace w3).
  { pose proof (save_data_to_txt_preserves trace) as P.
    specialize (P ltac:(reflexivity) (List.map row_strings rows)
                  (cwd (env w)) ltac:(reflexivity) w3).
    rewrite Hp in P. cbn [snd] in P. exact P. }
  assert (Hfile : fs w4 !! path = Some bs)
    by (rewrite Hfs; apply lookup_insert_eq).
  destruct (send_email_calm path bs w4 (calm_world_env w w4 E4 Hc) Hfile)
    as [w' [Hsend [Ho [Ff [Fs Ts]]]]].
  exists w', (log w4). split; [| split; [| split; [| split]]].
  - unfold main. rewrite (bind_ok _ _ _ _ _ Hcol).
    rewrite (bind_ok _ _ _ _ _ Hfetch).
    unfold publish. rewrite (bind_ok _ _ _ _ _ Hup).
    rewrite (bind_ok _ _ _ _ _ Hget).
    unfold bind at 1. unfold gets at 1. rewrite E3.
    rewrite (bind_ok _ _ _ _ _ Hp). exact Hsend.
  - rewrite Ts, T4. subst w3. wsimpl. rewrite T2, Htrace. subst w0. wsimpl.
    rewrite <- !app_assoc. reflexivity.
  - now rewrite Fs, S4.
  - now rewrite Ff.
  - now rewrite Ho, O4, E4.
Qed.

Lemma calm_run_publishes_the_feeds_witness :
  let w := world_with calm_complete [str ""; url_a; url_b] in
  let urls := fetched (drop 1 (read_col COLUMN_INDEX (sheet w))) in
  let rows := List.flat_map (feed_rows (env w)) urls in
  let path := snapshot_file (env w) (cwd (env w)) in
  let bs := default [] (snapshot_bytes (List.map row_strings rows)) in
  calm_world w
  /\ forallb (feed_titled (env w)) urls = true
  /\ rows <> []
  /\ forallb complete_row rows = true
  /\ snapshot_bytes (List.map row_strings rows) = Some bs
  /\ exists w' logged,
    main w = (Ok tt, w')
    /\ trace w' =
       trace w ++ [EvColValues COLUMN_INDEX] ++ List.map EvHttpGet urls ++
       [EvBatchClear [A2_H]; EvBatchUpdate (enumerate_rows rows 2 []);
        EvSheetGet A2_H;
        EvSmtpConnect; EvStarttls; EvLogin; EvSendmail; EvQuit]
    /\ read_range A2_H (sheet w') = List.map row_strings rows
    /\ fs w' !! path = Some bs
    /\ outbox w' = outbox w ++ [message_of (env w) path bs logged].
Proof.
  intros w urls rows path bs.
  assert (Hc : calm_world w) by (intros n; reflexivity).
  assert (Hf : forallb (feed_titled (env w)) urls = true)
    by (vm_compute; reflexivity).
  assert (Hn : rows <> []) by (vm_compute; discriminate).
  assert (Hr : forallb complete_row rows = true)
    by (vm_compute; reflexivity).
  assert (Hb : snapshot_bytes (List.map row_strings rows) = Some bs)
    by (vm_compute; reflexivity).
  exact (conj Hc (conj Hf (conj Hn (conj Hr (conj Hb
           (calm_run_publishes_the_feeds w bs Hc Hf Hn Hr Hb)))))).
Defined.

(* ===================================================================== *)
(** * Bounds of the retry loop and shape of the records                   *)
(* ===================================================================== *)




